(** * The asset registry chaincode (chaincode/assetregistry.go)

    A shallow embedding of the chaincode's request parser, asset context and
    the five operation handlers, together with the properties the
    specification states about them.

    Conventions of the embedding:
    - a Go [[]byte] is [bytes], an optional list of bytes: [None] is the nil
      slice, [Some l] a non-nil slice (possibly of length 0);
    - a Go [string] is a [string];
    - a pointer that may be nil ([*Asset], [*Owner]) is an [option];
    - a Go [error] produced by the chaincode is a value of [error], one
      constructor per [fmt.Errorf] site, rendered by [Error];
    - the [shim.ChaincodeStubInterface] value is threaded explicitly: a
      handler is a function from the stub to a result and the stub after it. *)

From Stdlib Require Import ZArith Strings.String Strings.Byte List.
From stdpp Require Import base gmap strings list option.
Import ListNotations.

Local Open Scope string_scope.
Local Open Scope list_scope.

(** ** Go values *)

#[global] Instance byte_eq_decision : EqDecision byte := byte_eq_dec.

(** A Go byte slice: [None] is nil. *)
Definition bytes : Type := option (list byte).

(** The bytes a slice holds; nil holds none. *)
Definition contents (b : bytes) : list byte :=
  match b with
  | None => []
  | Some l => l
  end.

(** [string(b)]: the conversion of a byte slice to a string. *)
Definition string_of_bytes (b : bytes) : string :=
  string_of_list_byte (contents b).

(** [bytes.Equal(a, b)]: same length and same bytes; a nil slice equals an
    empty one. *)
Definition bytes_Equal (a b : bytes) : bool :=
  bool_decide (contents a = contents b).

(** A byte slice literal, for examples. *)
Definition lit (s : string) : bytes := Some (list_byte_of_string s).

(** ** The data model *)

(** Modelled from the spec: the declarations of the protobuf messages
    [Owner] and [Asset] (the generated asset.pb.go is absent). The fields
    and their Go types are the ones the chaincode reads and writes: [Id] a
    byte slice, [LockedToChannel] a string, [History] a slice of pointers
    to [Owner]. *)
Record Owner := mkOwner { Id : bytes }.

(** Modelled from the spec: the message [Asset] of the absent asset.pb.go;
    an empty [LockedToChannel] means the asset is not locked, the last
    element of [History] is the current owner. *)
Record Asset := mkAsset {
  LockedToChannel : string;
  History : list (option Owner)
}.

(** ** Errors *)

(** One constructor per error the chaincode builds; the arguments are the
    values formatted into the message. *)
Inductive error : Type :=
| ErrNoArguments
| ErrOnlyOneArgument
| ErrTooManyArguments
| ErrGetCreator (cause : string)
| ErrGetState (key cause : string)
| ErrUnmarshal (cause : string)
| ErrMarshal (cause : string)
| ErrPutState (key cause : string)
| ErrCreateTooManyArgs
| ErrCreateExists
| ErrLockNoArg
| ErrLockMissing
| ErrLockLocked (key channel : string)
| ErrLockUnauthorized (key : string)
| ErrShowNoArg
| ErrShowUnlocked
| ErrShowNewer
| ErrTransferNoArg
| ErrTransferMissing
| ErrTransferLocked
| ErrTransferUnauthorized (key : string)
| ErrQueryTooManyArgs
| ErrQueryMissing.

(** [err.Error()]: the message of each error, as the format strings of the
    source give it. *)
Definition Error (e : error) : string :=
  match e with
  | ErrNoArguments => "Invoke called with no arguments"
  | ErrOnlyOneArgument => "Invoke called with only one argument"
  | ErrTooManyArguments => "Invoke called with too many arguments"
  | ErrGetCreator c => ("Could not get creator: " ++ c)%string
  | ErrGetState k c => ("Could not get asset for key " ++ k ++ ": " ++ c)%string
  | ErrUnmarshal c => ("Unexpected error unmarshaling: " ++ c)%string
  | ErrMarshal c => ("Error marshaling proto: " ++ c)%string
  | ErrPutState k c => ("Could not put state for key " ++ k ++ ": " ++ c)%string
  | ErrCreateTooManyArgs => "Too many arguments to 'create'"
  | ErrCreateExists => "Cannot create an asset who's key already exists"
  | ErrLockNoArg => "Must pass toChannel argument"
  | ErrLockMissing => "Cannot lock asset which does not exist"
  | ErrLockLocked k c => ("Asset " ++ k ++ " is already locked to " ++ c)%string
  | ErrLockUnauthorized k => ("Not authorized to lock asset " ++ k)%string
  | ErrShowNoArg => "Must pass fromChannel argument"
  | ErrShowUnlocked => "Cannot show an extant unlocked asset"
  | ErrShowNewer => "Asset has already been shown with newer history"
  | ErrTransferNoArg => "Must pass target to transfer to"
  | ErrTransferMissing => "Cannot transfer an asset which does not exist"
  | ErrTransferLocked =>
      "Cannot transfer an asset which has been locked to another channel"
  | ErrTransferUnauthorized k => ("Not authorized to transfer asset " ++ k)%string
  | ErrQueryTooManyArgs => "Too many args to 'query'"
  | ErrQueryMissing => "No asset found"
  end.

(** The error taxonomy of the specification. The source tells errors apart
    by their message only; [kindOf] gives each error of the source the kind
    under which the specification lists it. *)
Inductive ErrorKind : Type :=
| BadRequest
| NotFound
| Conflict
| Unauthorized
| Corruption
| InfrastructureError.

Definition kindOf (e : error) : ErrorKind :=
  match e with
  | ErrNoArguments | ErrOnlyOneArgument | ErrTooManyArguments => BadRequest
  | ErrCreateTooManyArgs | ErrLockNoArg | ErrShowNoArg
  | ErrTransferNoArg | ErrQueryTooManyArgs => BadRequest
  | ErrLockMissing | ErrTransferMissing | ErrQueryMissing => NotFound
  | ErrCreateExists | ErrLockLocked _ _ | ErrShowUnlocked | ErrShowNewer
  | ErrTransferLocked => Conflict
  | ErrLockUnauthorized _ | ErrTransferUnauthorized _ => Unauthorized
  | ErrUnmarshal _ => Corruption
  | ErrGetCreator _ | ErrGetState _ _ | ErrMarshal _ | ErrPutState _ _ =>
      InfrastructureError
  end.

(** A value or an error, for the Go functions that return [(T, error)]. *)
Inductive result (E A : Type) : Type :=
| Ok (a : A)
| Err (e : E).

Arguments Ok {E A} a.
Arguments Err {E A} e.

(** ** The request parser *)

(** [args[i]] for an index the caller knows to be in range (Go panics
    otherwise; every use below is guarded by [len(args)]). *)
Definition index (args : list bytes) (i : nat) : bytes := nth i args None.

(** [parseArgs]: the named results start at their zero values (the empty
    string twice, nil, nil) and the switch on [len(args)] assigns some of
    them; case 3 falls through to case 2. *)
Definition parseArgs (args : list bytes)
  : string * string * bytes * option error :=
  match length args with
  | 3 =>
      (string_of_bytes (index args 0), string_of_bytes (index args 1),
       index args 2, None)
  | 2 =>
      (string_of_bytes (index args 0), string_of_bytes (index args 1),
       None, None)
  | 1 => (EmptyString, EmptyString, None, Some ErrOnlyOneArgument)
  | 0 => (EmptyString, EmptyString, None, Some ErrNoArguments)
  | _ => (EmptyString, EmptyString, None, Some ErrTooManyArguments)
  end.

(** ** The collaborators: the protobuf codec and the chaincode stub *)

(** [proto.Marshal] and [proto.Unmarshal] at the type [Asset]. The codec is
    a library outside the chaincode; the handlers are defined, and their
    properties proved, for any codec. An error is the message of the Go
    error. A successful [proto.Marshal] returns a non-nil slice. *)
Class ProtoCodec : Type := {
  proto_Marshal : Asset -> result string (list byte);
  proto_Unmarshal : list byte -> result string Asset
}.

(** The stub of one invocation, in the manner of the shim's mock stub: the
    arguments and the creator of the transaction, the ledger state, and
    which reads and writes the ledger refuses. *)
Record ChaincodeStub := mkStub {
  stub_args : list bytes;
  stub_creator : result string bytes;
  stub_state : gmap string (list byte);
  stub_getStateErr : string -> option string;
  stub_putStateErr : string -> list byte -> option string
}.

Definition GetArgs (stub : ChaincodeStub) : list bytes := stub_args stub.

Definition GetCreator (stub : ChaincodeStub) : result string bytes :=
  stub_creator stub.

(** [GetState]: nil for a key the ledger does not hold. *)
Definition GetState (stub : ChaincodeStub) (key : string)
  : result string bytes :=
  match stub_getStateErr stub key with
  | Some cause => Err cause
  | None => Ok (stub_state stub !! key)
  end.

(** The stub after the ledger has accepted [value] at [key]. *)
Definition written (stub : ChaincodeStub) (key : string) (value : list byte)
  : ChaincodeStub :=
  {| stub_args := stub_args stub;
     stub_creator := stub_creator stub;
     stub_state := <[key := value]> (stub_state stub);
     stub_getStateErr := stub_getStateErr stub;
     stub_putStateErr := stub_putStateErr stub |}.

(** [PutState]: the ledger either refuses the write, and nothing changes, or
    holds [value] at [key] afterwards. *)
Definition PutState (stub : ChaincodeStub) (key : string) (value : list byte)
  : option string * ChaincodeStub :=
  match stub_putStateErr stub key value with
  | Some cause => (Some cause, stub)
  | None => (None, written stub key value)
  end.

(** [sc.Response], and the two constructors of the shim. *)
Record Response := mkResponse {
  Status : Z;
  Message : string;
  Payload : bytes
}.

Definition OK : Z := 200.
Definition ERROR : Z := 500.

Definition shim_Success (payload : bytes) : Response :=
  {| Status := OK; Message := EmptyString; Payload := payload |}.

Definition shim_Error (msg : string) : Response :=
  {| Status := ERROR; Message := msg; Payload := None |}.

(** ** Handlers as stub transformers *)

(** A computation that may fail and may write to the ledger. The stub is
    returned in both cases, as the Go code keeps it. *)
Definition M (A : Type) : Type :=
  ChaincodeStub -> result error A * ChaincodeStub.

Definition ret {A : Type} (a : A) : M A := fun stub => (Ok a, stub).

Definition fail {A : Type} (e : error) : M A := fun stub => (Err e, stub).

Definition bind {A B : Type} (m : M A) (f : A -> M B) : M B :=
  fun stub =>
    match m stub with
    | (Ok a, stub') => f a stub'
    | (Err e, stub') => (Err e, stub')
    end.

Notation "x <- m ;; k" := (bind m (fun x => k))
  (at level 100, m at next level, right associativity).

(** [proto.Marshal(a)] followed by the handlers' common error wrapping. *)
Definition marshal `{ProtoCodec} (a : Asset) : M (list byte) :=
  match proto_Marshal a with
  | Ok assetBytes => ret assetBytes
  | Err cause => fail (ErrMarshal cause)
  end.

(** [ac.stub.PutState(key, value)] followed by the handlers' common error
    wrapping. *)
Definition putState (key : string) (value : list byte) : M unit :=
  fun stub =>
    match PutState stub key value with
    | (None, stub') => (Ok tt, stub')
    | (Some cause, stub') => (Err (ErrPutState key cause), stub')
    end.

(** ** The asset context *)

Record assetContext := mkContext {
  creator : bytes;
  asset : option Asset;
  function : string;
  key : string;
  functionArg : bytes
}.

(** [newAssetContext]: parse the arguments, then read the creator and the
    current state of the asset, and decode it if there is one. *)
Definition newAssetContext `{ProtoCodec} (stub : ChaincodeStub)
  : result error assetContext :=
  let '(function, key, functionArg, err) := parseArgs (GetArgs stub) in
  match err with
  | Some e => Err e
  | None =>
      match GetCreator stub with
      | Err cause => Err (ErrGetCreator cause)
      | Ok creator =>
          match GetState stub key with
          | Err cause => Err (ErrGetState key cause)
          | Ok None =>
              Ok {| creator := creator; asset := None; function := function;
                    key := key; functionArg := functionArg |}
          | Ok (Some assetBytes) =>
              match proto_Unmarshal assetBytes with
              | Err cause => Err (ErrUnmarshal cause)
              | Ok a =>
                  Ok {| creator := creator; asset := Some a;
                        function := function; key := key;
                        functionArg := functionArg |}
              end
          end
      end
  end.

(** [ac.ownsAsset()] *)
Definition ownsAsset (ac : assetContext) : bool :=
  match asset ac with
  | None => false
  | Some a =>
      if Nat.eqb (length (History a)) 0 then false
      else
        match nth (length (History a) - 1) (History a) None with
        | None => false
        | Some assetOwner => bytes_Equal (Id assetOwner) (creator ac)
        end
  end.

(** [x != nil] for a slice or a pointer. *)
Definition notNil {A : Type} (x : option A) : bool :=
  match x with
  | None => false
  | Some _ => true
  end.

(** Comparison of a string with the empty string, and its negation. *)
Definition isEmpty (s : string) : bool := String.eqb s EmptyString.

Definition nonEmpty (s : string) : bool := negb (isEmpty s).

Section Handlers.

Context `{ProtoCodec}.

(** [ac.create()] *)
Definition create (ac : assetContext) : M (list byte) :=
  if notNil (functionArg ac) then fail ErrCreateTooManyArgs
  else if notNil (asset ac) then fail ErrCreateExists
  else
    assetBytes <- marshal {| LockedToChannel := EmptyString;
                             History := [Some {| Id := creator ac |}] |} ;;
    _ <- putState (key ac) assetBytes ;;
    ret assetBytes.

(** [ac.lock()] *)
Definition lock (ac : assetContext) : M (list byte) :=
  match functionArg ac with
  | None => fail ErrLockNoArg
  | Some _ =>
      let toChannel := string_of_bytes (functionArg ac) in
      match asset ac with
      | None => fail ErrLockMissing
      | Some a =>
          if nonEmpty (LockedToChannel a)
          then fail (ErrLockLocked (key ac) (LockedToChannel a))
          else if negb (ownsAsset ac)
          then fail (ErrLockUnauthorized (key ac))
          else
            assetBytes <- marshal {| LockedToChannel := toChannel;
                                     History := History a |} ;;
            _ <- putState (key ac) assetBytes ;;
            ret assetBytes
      end
  end.

(** [ac.show()]. The asset of the other channel is not looked up:
    [fromAsset] is built from the creator alone. *)
Definition show (ac : assetContext) : M (list byte) :=
  match functionArg ac with
  | None => fail ErrShowNoArg
  | Some _ =>
      let fromChannel := string_of_bytes (functionArg ac) in
      if match asset ac with
         | Some a => isEmpty (LockedToChannel a)
         | None => false
         end
      then fail ErrShowUnlocked
      else
        let fromAsset := {| LockedToChannel := EmptyString;
                            History := [Some {| Id := creator ac |}] |} in
        if match asset ac with
           | Some a =>
               Nat.leb (length (History fromAsset)) (length (History a))
           | None => false
           end
        then fail ErrShowNewer
        else
          toAssetBytes <-
            marshal {| LockedToChannel := EmptyString;
                       History :=
                         History fromAsset ++
                         [nth (length (History fromAsset) - 1)
                              (History fromAsset) None] |} ;;
          _ <- putState (key ac) toAssetBytes ;;
          ret toAssetBytes
  end.

(** [ac.transfer()] *)
Definition transfer (ac : assetContext) : M (list byte) :=
  match functionArg ac with
  | None => fail ErrTransferNoArg
  | Some _ =>
      let toID := functionArg ac in
      match asset ac with
      | None => fail ErrTransferMissing
      | Some a =>
          if nonEmpty (LockedToChannel a) then fail ErrTransferLocked
          else if negb (ownsAsset ac)
          then fail (ErrTransferUnauthorized (key ac))
          else
            assetBytes <- marshal {| LockedToChannel := LockedToChannel a;
                                     History :=
                                       History a ++ [Some {| Id := toID |}] |} ;;
            _ <- putState (key ac) assetBytes ;;
            ret assetBytes
      end
  end.

(** [ac.query()]. The test on [functionArg] is the source's: the handler
    returns its error when the argument is nil. *)
Definition query (ac : assetContext) : M (list byte) :=
  match functionArg ac with
  | None => fail ErrQueryTooManyArgs
  | Some _ =>
      match asset ac with
      | None => fail ErrQueryMissing
      | Some a => marshal a
      end
  end.

(** [ac.execute()] *)
Definition execute (ac : assetContext) (stub : ChaincodeStub)
  : Response * ChaincodeStub :=
  let run (handler : M (list byte)) :=
    match handler stub with
    | (Err err, stub') => (shim_Error (Error err), stub')
    | (Ok result, stub') => (shim_Success (Some result), stub')
    end in
  if String.eqb (function ac) "create" then run (create ac)
  else if String.eqb (function ac) "lock" then run (lock ac)
  else if String.eqb (function ac) "show" then run (show ac)
  else if String.eqb (function ac) "transfer" then run (transfer ac)
  else if String.eqb (function ac) "query" then run (query ac)
  else (shim_Error "Invalid invocation function", stub).

(** [Init]: a no-op. *)
Definition Init (stub : ChaincodeStub) : Response * ChaincodeStub :=
  (shim_Success None, stub).

(** [Invoke] *)
Definition Invoke (stub : ChaincodeStub) : Response * ChaincodeStub :=
  match newAssetContext stub with
  | Err err => (shim_Error (Error err), stub)
  | Ok ac => execute ac stub
  end.

End Handlers.

(** ** Ownership, as the specification words it *)

(** The invoker is the current owner of [a]: the history of [a] is not
    empty, its last entry is present, and the id of that entry equals the
    invoker's identity byte for byte. *)
Definition ownedBy (a : Asset) (invoker : bytes) : Prop :=
  exists (earlier : list (option Owner)) (o : Owner),
    History a = earlier ++ [Some o] /\ contents (Id o) = contents invoker.

(** ** Outcomes *)

(** The handler returned the error [e], of kind [k], and left the stub as
    it was. *)
Definition fails {A : Type} (outcome : result error A * ChaincodeStub)
  (e : error) (k : ErrorKind) (stub : ChaincodeStub) : Prop :=
  outcome = (Err e, stub) /\ kindOf e = k.

(** What one invocation may do to the ledger: nothing when it fails, and at
    most one write, at the key [k], when it succeeds. *)
Definition atomic {A : Type} (outcome : result error A * ChaincodeStub)
  (stub : ChaincodeStub) (k : string) : Prop :=
  match outcome with
  | (Err _, stub') => stub' = stub
  | (Ok _, stub') =>
      stub' = stub \/ exists value : list byte, stub' = written stub k value
  end.

(** The five handlers [execute] dispatches to. *)
Definition handlers `{ProtoCodec} : list (assetContext -> M (list byte)) :=
  [create; lock; show; transfer; query].

(** The same stub, invoked with other arguments. *)
Definition withArgs (stub : ChaincodeStub) (args : list bytes)
  : ChaincodeStub :=
  {| stub_args := args;
     stub_creator := stub_creator stub;
     stub_state := stub_state stub;
     stub_getStateErr := stub_getStateErr stub;
     stub_putStateErr := stub_putStateErr stub |}.

(** The same stub, invoked by another creator. *)
Definition withCreator (stub : ChaincodeStub) (invoker : result string bytes)
  : ChaincodeStub :=
  {| stub_args := stub_args stub;
     stub_creator := invoker;
     stub_state := stub_state stub;
     stub_getStateErr := stub_getStateErr stub;
     stub_putStateErr := stub_putStateErr stub |}.

(** The response [execute] builds from the outcome of a handler. *)
Definition respond (outcome : result error (list byte) * ChaincodeStub)
  : Response * ChaincodeStub :=
  match outcome with
  | (Err err, stub') => (shim_Error (Error err), stub')
  | (Ok result, stub') => (shim_Success (Some result), stub')
  end.

(** The operation names [execute] knows. *)
Definition operations : list string :=
  ["create"; "lock"; "show"; "transfer"; "query"].

(** The four handlers that call [PutState]. *)
Definition writers `{ProtoCodec} : list (assetContext -> M (list byte)) :=
  [create; lock; show; transfer].

(** The operation name and the asset key of an invocation: its first and
    its second argument, as strings. *)
Definition invokedFunction (stub : ChaincodeStub) : string :=
  string_of_bytes (index (GetArgs stub) 0).

Definition invokedKey (stub : ChaincodeStub) : string :=
  string_of_bytes (index (GetArgs stub) 1).

(** The context that belongs to a stub: the invocation has two or three
    arguments, the creator and the state of the key could be read, and
    [ac] holds the creator, the operation name, the key, the third argument
    when there are three, and the decoded asset when the ledger holds bytes
    at the key. *)
Definition contextOf `{ProtoCodec} (stub : ChaincodeStub)
  (ac : assetContext) : Prop :=
  (length (GetArgs stub) = 2 \/ length (GetArgs stub) = 3)
  /\ GetCreator stub = Ok (creator ac)
  /\ stub_getStateErr stub (invokedKey stub) = None
  /\ function ac = invokedFunction stub
  /\ key ac = invokedKey stub
  /\ functionArg ac
     = (if Nat.eqb (length (GetArgs stub)) 3 then index (GetArgs stub) 2
        else None)
  /\ ((stub_state stub !! invokedKey stub = None /\ asset ac = None)
      \/ exists (assetBytes : list byte) (a : Asset),
           stub_state stub !! invokedKey stub = Some assetBytes
           /\ proto_Unmarshal assetBytes = Ok a
           /\ asset ac = Some a).

(** ** A concrete codec: the protobuf wire format *)

Module Wire.

Local Open Scope N_scope.

Definition byte_of_N (n : N) : byte :=
  default "000"%byte (Byte.of_N (n mod 256)).

(** Base-128 varints, least significant group first; a 64-bit value takes
    at most ten bytes. *)
Fixpoint encodeVarint_aux (fuel : nat) (n : N) : list byte :=
  match fuel with
  | O => []
  | S fuel' =>
      if n <? 128 then [byte_of_N n]
      else byte_of_N (128 + n mod 128) :: encodeVarint_aux fuel' (n / 128)
  end.

Definition encodeVarint (n : N) : list byte := encodeVarint_aux 10 n.

Fixpoint decodeVarint (bs : list byte) : option (N * list byte) :=
  match bs with
  | [] => None
  | b :: rest =>
      let v := Byte.to_N b in
      if v <? 128 then Some (v, rest)
      else
        match decodeVarint rest with
        | Some (hi, rest') => Some (v - 128 + 128 * hi, rest')
        | None => None
        end
  end.

(** A length-delimited field: the tag, the length, the payload. *)
Definition encodeLenDelim (fieldNumber : N) (payload : list byte)
  : list byte :=
  encodeVarint (fieldNumber * 8 + 2)
  ++ encodeVarint (N.of_nat (length payload)) ++ payload.

(** The value of one field, by wire type. *)
Inductive fieldValue : Type :=
| Varint (n : N)
| Fixed (bs : list byte)
| LenDelim (payload : list byte).

Definition takeExactly (n : nat) (bs : list byte)
  : option (list byte * list byte) :=
  if Nat.leb n (length bs) then Some (take n bs, drop n bs) else None.

Definition readField (bs : list byte)
  : option (N * fieldValue * list byte) :=
  match decodeVarint bs with
  | None => None
  | Some (tag, rest) =>
      let fieldNumber := tag / 8 in
      match tag mod 8 with
      | 0 =>
          match decodeVarint rest with
          | Some (n, rest') => Some (fieldNumber, Varint n, rest')
          | None => None
          end
      | 1 =>
          match takeExactly 8 rest with
          | Some (v, rest') => Some (fieldNumber, Fixed v, rest')
          | None => None
          end
      | 2 =>
          match decodeVarint rest with
          | Some (n, rest') =>
              match takeExactly (N.to_nat n) rest' with
              | Some (v, rest'') => Some (fieldNumber, LenDelim v, rest'')
              | None => None
              end
          | None => None
          end
      | 5 =>
          match takeExactly 4 rest with
          | Some (v, rest') => Some (fieldNumber, Fixed v, rest')
          | None => None
          end
      | _ => None
      end
  end.

(** All the fields of a message; every field takes at least one byte, so
    the length of the input bounds the number of fields. *)
Fixpoint readFields (fuel : nat) (bs : list byte)
  : option (list (N * fieldValue)) :=
  match bs, fuel with
  | [], _ => Some []
  | _, O => None
  | _, S fuel' =>
      match readField bs with
      | None => None
      | Some (fieldNumber, v, rest) =>
          match readFields fuel' rest with
          | Some fields => Some ((fieldNumber, v) :: fields)
          | None => None
          end
      end
  end.

(** Modelled from the spec: the message descriptors of [Owner] and [Asset]
    (the generated asset.pb.go and its .proto file are absent). The encoding
    is field-tagged; the fields are numbered in the order the data model
    lists them: [id = 1] in [Owner], [lockedToChannel = 1] and
    [history = 2] in [Asset]. A field at its zero value is not written. *)
Definition encodeOwner (o : Owner) : list byte :=
  match contents (Id o) with
  | [] => []
  | id => encodeLenDelim 1 id
  end.

Definition decodeOwnerField (acc : result string Owner)
  (f : N * fieldValue) : result string Owner :=
  match acc, f with
  | Err e, _ => Err e
  | Ok _, (1, LenDelim id) => Ok {| Id := Some id |}
  | Ok _, (1, _) => Err "proto: bad wiretype for field Owner.Id"%string
  | Ok o, _ => Ok o
  end.

Definition decodeOwner (bs : list byte) : result string Owner :=
  match readFields (length bs) bs with
  | None => Err "unexpected EOF"%string
  | Some fields => fold_left decodeOwnerField fields (Ok {| Id := None |})
  end.

(** A nil element of a repeated field cannot be encoded. *)
Fixpoint encodeHistory (h : list (option Owner))
  : result string (list byte) :=
  match h with
  | [] => Ok []
  | None :: _ => Err "proto: repeated field has nil element"%string
  | Some o :: h' =>
      match encodeHistory h' with
      | Ok bs => Ok (encodeLenDelim 2 (encodeOwner o) ++ bs)
      | Err e => Err e
      end
  end.

Definition Marshal (a : Asset) : result string (list byte) :=
  match encodeHistory (History a) with
  | Err e => Err e
  | Ok hs =>
      Ok (match list_byte_of_string (LockedToChannel a) with
          | [] => []
          | s => encodeLenDelim 1 s
          end ++ hs)
  end.

Definition decodeAssetField (acc : result string Asset)
  (f : N * fieldValue) : result string Asset :=
  match acc, f with
  | Err e, _ => Err e
  | Ok a, (1, LenDelim s) =>
      Ok {| LockedToChannel := string_of_list_byte s;
            History := History a |}
  | Ok _, (1, _) =>
      Err "proto: bad wiretype for field Asset.LockedToChannel"%string
  | Ok a, (2, LenDelim o) =>
      match decodeOwner o with
      | Ok owner =>
          Ok {| LockedToChannel := LockedToChannel a;
                History := History a ++ [Some owner] |}
      | Err e => Err e
      end
  | Ok _, (2, _) => Err "proto: bad wiretype for field Asset.History"%string
  | Ok a, _ => Ok a
  end.

Definition Unmarshal (bs : list byte) : result string Asset :=
  match readFields (length bs) bs with
  | None => Err "unexpected EOF"%string
  | Some fields =>
      fold_left decodeAssetField fields
        (Ok {| LockedToChannel := EmptyString; History := [] |})
  end.

#[export] Instance codec : ProtoCodec :=
  {| proto_Marshal := Marshal; proto_Unmarshal := Unmarshal |}.

End Wire.


(** ** Examples: the end-to-end scenario of the specification *)

Module Scenario.

Import Wire.

Definition A : bytes := lit "A".
Definition B : bytes := lit "B".

(** A stub on which every read and write succeeds. *)
Definition invocation (invoker : bytes) (args : list string)
  (state : gmap string (list byte)) : ChaincodeStub :=
  {| stub_args := map lit args;
     stub_creator := Ok invoker;
     stub_state := state;
     stub_getStateErr := fun _ => None;
     stub_putStateErr := fun _ _ => None |}.

Definition created : Asset :=
  {| LockedToChannel := EmptyString; History := [Some {| Id := A |}] |}.

Definition locked : Asset :=
  {| LockedToChannel := "channel2"; History := [Some {| Id := A |}] |}.

Definition encoded (a : Asset) : list byte :=
  match Marshal a with
  | Ok bs => bs
  | Err _ => []
  end.

Definition ledger (a : Asset) : gmap string (list byte) :=
  {[ "assetA" := encoded a ]}.

(** A locked asset without history: no sequence of invocations stores one,
    but the stored bytes may decode to it. *)
Definition lockedNoHistory : Asset :=
  {| LockedToChannel := "channel2"; History := [] |}.

Definition shown (invoker : bytes) : Asset :=
  {| LockedToChannel := EmptyString;
     History := [Some {| Id := invoker |}; Some {| Id := invoker |}] |}.

Definition transferred : Asset :=
  {| LockedToChannel := EmptyString;
     History := [Some {| Id := A |}; Some {| Id := B |}] |}.

(** The context [newAssetContext] builds for an invocation on "assetA". *)
Definition context (invoker : bytes) (operation : string)
  (current : option Asset) (arg : bytes) : assetContext :=
  {| creator := invoker; asset := current; function := operation;
     key := "assetA"; functionArg := arg |}.

(** A stub whose creator cannot be read. *)
Definition anonymous (args : list string)
  (state : gmap string (list byte)) : ChaincodeStub :=
  withCreator (invocation None args state) (Err "no identity").

(** A stub whose ledger refuses every write. *)
Definition readOnly (invoker : bytes) (args : list string)
  (state : gmap string (list byte)) : ChaincodeStub :=
  {| stub_args := map lit args;
     stub_creator := Ok invoker;
     stub_state := state;
     stub_getStateErr := fun _ => None;
     stub_putStateErr := fun _ _ => Some "ledger is read-only" |}.

(** A stub whose ledger cannot be read. *)
Definition unreadable (invoker : bytes) (args : list string)
  : ChaincodeStub :=
  {| stub_args := map lit args;
     stub_creator := Ok invoker;
     stub_state := ∅;
     stub_getStateErr := fun _ => Some "ledger is down";
     stub_putStateErr := fun _ _ => None |}.

(** Bytes that are no encoding of an asset: a tag without its field. *)
Definition garbage : gmap string (list byte) :=
  {[ "assetA" := ["010"%byte] ]}.

End Scenario.

(** ** Properties of the request parser *)

(** C3. The request parser fails on 0, on 1 and on 4 or more arguments
    (every one of these errors is a bad request); on 2 arguments it returns
    the first as the operation name, the second as the asset key and no
    optional argument; on 3 it returns the third as the optional argument
    as well. It is a function of the argument list alone: it neither reads
    nor writes the stub. *)
Theorem parseArgs_cases :
  parseArgs [] = (EmptyString, EmptyString, None, Some ErrNoArguments)
  /\ (forall a0 : bytes,
        parseArgs [a0]
        = (EmptyString, EmptyString, None, Some ErrOnlyOneArgument))
  /\ (forall a0 a1 : bytes,
        parseArgs [a0; a1]
        = (string_of_bytes a0, string_of_bytes a1, None, None))
  /\ (forall a0 a1 a2 : bytes,
        parseArgs [a0; a1; a2]
        = (string_of_bytes a0, string_of_bytes a1, a2, None))
  /\ (forall (a0 a1 a2 a3 : bytes) (rest : list bytes),
        parseArgs (a0 :: a1 :: a2 :: a3 :: rest)
        = (EmptyString, EmptyString, None, Some ErrTooManyArguments))
  /\ kindOf ErrNoArguments = BadRequest
  /\ kindOf ErrOnlyOneArgument = BadRequest
  /\ kindOf ErrTooManyArguments = BadRequest.
Proof. repeat split. Qed.

(** The same, by the length of the list: an error exactly when the length
    is neither 2 nor 3. *)
Lemma parseArgs_error_iff (args : list bytes) :
  snd (parseArgs args) = None <-> length args = 2 \/ length args = 3.
Proof.
  unfold parseArgs.
  destruct args as [|a0 [|a1 [|a2 [|a3 rest]]]]; simpl; split;
    intros Hx; try discriminate; try lia; auto.
Qed.

(** ** Properties of the handlers *)

Lemma bytes_Equal_true (a b : bytes) :
  bytes_Equal a b = true <-> contents a = contents b.
Proof. unfold bytes_Equal. apply bool_decide_eq_true. Qed.

Lemma isEmpty_true (s : string) : isEmpty s = true <-> s = EmptyString.
Proof. unfold isEmpty. apply String.eqb_eq. Qed.

Lemma nonEmpty_true (s : string) : nonEmpty s = true <-> s <> EmptyString.
Proof.
  unfold nonEmpty, isEmpty. rewrite negb_true_iff. apply String.eqb_neq.
Qed.

Lemma nonEmpty_false (s : string) : nonEmpty s = false <-> s = EmptyString.
Proof.
  unfold nonEmpty. rewrite negb_false_iff. apply isEmpty_true.
Qed.

Lemma nth_last_snoc {A : Type} (l : list A) (x d : A) :
  nth (length (l ++ [x]) - 1) (l ++ [x]) d = x.
Proof.
  rewrite length_app. simpl.
  replace (length l + 1 - 1) with (length l) by lia.
  rewrite app_nth2 by lia. rewrite Nat.sub_diag. reflexivity.
Qed.

(** [ownsAsset] decides ownership as the specification words it. *)
Lemma ownsAsset_ownedBy (ac : assetContext) (a : Asset) :
  asset ac = Some a -> (ownsAsset ac = true <-> ownedBy a (creator ac)).
Proof.
  intros Ha. unfold ownsAsset, ownedBy. rewrite Ha.
  destruct (History a) as [|x l] eqn:Hh using rev_ind.
  - simpl. split; [discriminate|].
    intros (earlier & o & Heq & _). destruct earlier; discriminate.
  - clear IHl.
    replace (Nat.eqb (length (l ++ [x])) 0) with false
      by (rewrite length_app; simpl; symmetry; apply Nat.eqb_neq; lia).
    rewrite nth_last_snoc. destruct x as [o|].
    + rewrite bytes_Equal_true. split.
      * intros Heq. exists l, o. split; [reflexivity | exact Heq].
      * intros (earlier & o' & Heq & Hid).
        apply app_inj_tail in Heq as [_ Heq]. congruence.
    + split; [discriminate|].
      intros (earlier & o' & Heq & _).
      apply app_inj_tail in Heq as [_ Heq]. discriminate.
Qed.

Lemma ownsAsset_false (ac : assetContext) (a : Asset) :
  asset ac = Some a -> ~ ownedBy a (creator ac) -> ownsAsset ac = false.
Proof.
  intros Ha Hno. destruct (ownsAsset ac) eqn:Ho; [|reflexivity].
  exfalso. apply Hno. apply (ownsAsset_ownedBy ac a Ha). exact Ho.
Qed.

Section HandlerProperties.

Context `{ProtoCodec}.

(** A handler that reaches its write: the codec encodes the asset and the
    ledger accepts the bytes. *)
Lemma marshal_then_put (a : Asset) (k : string) (assetBytes : list byte)
  (stub : ChaincodeStub) :
  proto_Marshal a = Ok assetBytes ->
  stub_putStateErr stub k assetBytes = None ->
  (assetBytes <- marshal a ;; _ <- putState k assetBytes ;; ret assetBytes)
    stub
  = (Ok assetBytes, written stub k assetBytes).
Proof.
  intros Hm Hp. unfold bind, marshal, putState, PutState, ret.
  rewrite Hm. simpl. rewrite Hp. reflexivity.
Qed.

(** C2. A create invocation with no extra argument fails with a conflict
    when an asset already exists at the key, whoever the invoker is;
    otherwise (the codec and the ledger doing their part) it writes at the
    key, and returns, the serialized asset with an empty lockedToChannel
    and the history [[Owner{id: invoker}]]. *)
Theorem create_spec (ac : assetContext) (stub : ChaincodeStub) :
  functionArg ac = None ->
  (forall a : Asset,
     asset ac = Some a ->
     fails (create ac stub) ErrCreateExists Conflict stub)
  /\ (forall assetBytes : list byte,
       asset ac = None ->
       proto_Marshal {| LockedToChannel := EmptyString;
                        History := [Some {| Id := creator ac |}] |}
       = Ok assetBytes ->
       stub_putStateErr stub (key ac) assetBytes = None ->
       create ac stub = (Ok assetBytes, written stub (key ac) assetBytes)).
Proof.
  intros Harg. split.
  - intros a Ha. unfold fails, create. rewrite Harg, Ha. simpl.
    split; reflexivity.
  - intros assetBytes Ha Hm Hp. unfold create. rewrite Harg, Ha. simpl.
    apply marshal_then_put; assumption.
Qed.

(** C4. A show invocation with a fromChannel argument, on a key that holds
    no asset, writes at the key and returns the serialized unlocked asset
    whose history is the invoker twice, [[Owner{id: invoker};
    Owner{id: invoker}]]: the one-element history the handler builds in
    place of a lookup on the other channel, followed by a second copy of its
    last owner. The value of the argument does not occur in the outcome, and
    the only collaborators the handler uses are the codec and the ledger
    write of this stub. *)
Theorem show_absent (ac : assetContext) (stub : ChaincodeStub)
  (fromChannel assetBytes : list byte) :
  functionArg ac = Some fromChannel ->
  asset ac = None ->
  proto_Marshal {| LockedToChannel := EmptyString;
                   History := [Some {| Id := creator ac |};
                               Some {| Id := creator ac |}] |}
  = Ok assetBytes ->
  stub_putStateErr stub (key ac) assetBytes = None ->
  show ac stub = (Ok assetBytes, written stub (key ac) assetBytes).
Proof.
  intros Harg Ha Hm Hp. unfold show. rewrite Harg, Ha. simpl.
  apply marshal_then_put; assumption.
Qed.

(** C5. A show invocation with a fromChannel argument, on a key that holds
    an asset: it fails with a conflict when the asset is not locked, and
    also when the asset is locked and its history has at least one entry
    (the length of the history the handler builds). So a show that returns
    bytes found the asset locked and with an empty history. *)
Theorem show_existing (ac : assetContext) (stub : ChaincodeStub)
  (fromChannel : list byte) (a : Asset) :
  functionArg ac = Some fromChannel ->
  asset ac = Some a ->
  (LockedToChannel a = EmptyString ->
   fails (show ac stub) ErrShowUnlocked Conflict stub)
  /\ (LockedToChannel a <> EmptyString ->
      1 <= length (History a) ->
      fails (show ac stub) ErrShowNewer Conflict stub)
  /\ (forall (assetBytes : list byte) (stub' : ChaincodeStub),
        show ac stub = (Ok assetBytes, stub') ->
        LockedToChannel a <> EmptyString /\ History a = []).
Proof.
  intros Harg Ha. unfold fails, show. rewrite Harg, Ha. simpl.
  split; [|split].
  - intros Hl. apply isEmpty_true in Hl. rewrite Hl. split; reflexivity.
  - intros Hl Hlen.
    destruct (isEmpty (LockedToChannel a)) eqn:He.
    + apply isEmpty_true in He. contradiction.
    + destruct (History a); [simpl in Hlen; lia|]. split; reflexivity.
  - intros assetBytes stub'.
    destruct (isEmpty (LockedToChannel a)) eqn:He; [discriminate|].
    destruct (History a) as [|o h]; [|discriminate].
    intros _. split; [|reflexivity].
    intros Hl. apply isEmpty_true in Hl. congruence.
Qed.

(** C6. A lock invocation fails with a bad request when the toChannel
    argument is absent, then with not-found when the key holds no asset,
    then with a conflict when the asset is locked already, then as
    unauthorized when the invoker is not the last owner of the history;
    otherwise it writes at the key, and returns, the serialized asset with
    lockedToChannel set to the argument, whatever it is, and the history as
    it was. *)
Theorem lock_spec (ac : assetContext) (stub : ChaincodeStub) :
  (functionArg ac = None -> fails (lock ac stub) ErrLockNoArg BadRequest stub)
  /\ (forall toChannel : list byte,
        functionArg ac = Some toChannel ->
        (asset ac = None ->
         fails (lock ac stub) ErrLockMissing NotFound stub)
        /\ (forall a : Asset,
              asset ac = Some a ->
              (LockedToChannel a <> EmptyString ->
               fails (lock ac stub)
                 (ErrLockLocked (key ac) (LockedToChannel a)) Conflict stub)
              /\ (LockedToChannel a = EmptyString ->
                  ~ ownedBy a (creator ac) ->
                  fails (lock ac stub)
                    (ErrLockUnauthorized (key ac)) Unauthorized stub)
              /\ (forall assetBytes : list byte,
                    LockedToChannel a = EmptyString ->
                    ownedBy a (creator ac) ->
                    proto_Marshal
                      {| LockedToChannel := string_of_list_byte toChannel;
                         History := History a |}
                    = Ok assetBytes ->
                    stub_putStateErr stub (key ac) assetBytes = None ->
                    lock ac stub
                    = (Ok assetBytes, written stub (key ac) assetBytes)))).
Proof.
  unfold fails. split.
  - intros Harg. unfold lock. rewrite Harg. split; reflexivity.
  - intros toChannel Harg. split.
    + intros Ha. unfold lock. rewrite Harg, Ha. split; reflexivity.
    + intros a Ha. unfold lock. rewrite Harg, Ha. split; [|split].
      * intros Hl. apply nonEmpty_true in Hl. rewrite Hl. split; reflexivity.
      * intros Hl Hno. apply nonEmpty_false in Hl. rewrite Hl.
        rewrite (ownsAsset_false ac a Ha Hno). split; reflexivity.
      * intros assetBytes Hl Hown Hm Hp. apply nonEmpty_false in Hl.
        rewrite Hl. apply (ownsAsset_ownedBy ac a Ha) in Hown.
        rewrite Hown. simpl. apply marshal_then_put; assumption.
Qed.

(** C8. A transfer invocation with a toOwnerId argument, on a key that
    holds an unlocked asset: it fails as unauthorized when the invoker is
    not the current owner, in particular when the history is empty or its
    last entry is absent; when the invoker is the current owner it writes at
    the key, and returns, the serialized asset whose history is the former
    history, entry for entry, followed by [Owner{id: toOwnerId}]. *)
Theorem transfer_spec (ac : assetContext) (stub : ChaincodeStub)
  (toOwnerId : list byte) (a : Asset) :
  functionArg ac = Some toOwnerId ->
  asset ac = Some a ->
  LockedToChannel a = EmptyString ->
  (~ ownedBy a (creator ac) ->
   fails (transfer ac stub)
     (ErrTransferUnauthorized (key ac)) Unauthorized stub)
  /\ (History a = [] -> ~ ownedBy a (creator ac))
  /\ (forall earlier : list (option Owner),
        History a = earlier ++ [None] -> ~ ownedBy a (creator ac))
  /\ (forall (earlier : list (option Owner)) (o : Owner),
        History a = earlier ++ [Some o] ->
        contents (Id o) <> contents (creator ac) ->
        ~ ownedBy a (creator ac))
  /\ (forall assetBytes : list byte,
        ownedBy a (creator ac) ->
        proto_Marshal
          {| LockedToChannel := EmptyString;
             History := History a ++ [Some {| Id := Some toOwnerId |}] |}
        = Ok assetBytes ->
        stub_putStateErr stub (key ac) assetBytes = None ->
        transfer ac stub
        = (Ok assetBytes, written stub (key ac) assetBytes)).
Proof.
  intros Harg Ha Hl. unfold fails.
  split; [|split; [|split; [|split]]].
  - intros Hno. unfold transfer. rewrite Harg, Ha.
    rewrite (proj2 (nonEmpty_false _) Hl).
    rewrite (ownsAsset_false ac a Ha Hno). split; reflexivity.
  - intros Hh (earlier & o & Heq & _). rewrite Hh in Heq.
    destruct earlier; discriminate.
  - intros earlier Hh (earlier' & o & Heq & _). rewrite Hh in Heq.
    apply app_inj_tail in Heq as [_ Heq]. discriminate.
  - intros earlier o Hh Hid (earlier' & o' & Heq & Hid'). rewrite Hh in Heq.
    apply app_inj_tail in Heq as [_ Heq]. congruence.
  - intros assetBytes Hown Hm Hp. unfold transfer. rewrite Harg, Ha.
    rewrite (proj2 (nonEmpty_false _) Hl).
    apply (ownsAsset_ownedBy ac a Ha) in Hown. rewrite Hown. simpl.
    rewrite Hl. apply marshal_then_put; assumption.
Qed.

(** *** Failures write nothing *)

Lemma marshal_then_put_atomic (a : Asset) (k : string)
  (stub : ChaincodeStub) :
  atomic
    ((assetBytes <- marshal a ;; _ <- putState k assetBytes ;;
      ret assetBytes) stub) stub k.
Proof.
  unfold atomic, bind, marshal, putState, PutState, ret, fail.
  destruct (proto_Marshal a) as [assetBytes|cause]; [|reflexivity].
  destruct (stub_putStateErr stub k assetBytes) as [cause|].
  - reflexivity.
  - right. exists assetBytes. reflexivity.
Qed.

Ltac handler_cases :=
  repeat match goal with
    | |- atomic (fail _ _) _ _ => reflexivity
    | |- atomic (bind _ _ _) _ _ => apply marshal_then_put_atomic
    | |- atomic ((if ?c then _ else _) _) _ _ => destruct c
    | |- atomic ((match ?x with _ => _ end) _) _ _ => destruct x
    end.

Lemma create_atomic (ac : assetContext) (stub : ChaincodeStub) :
  atomic (create ac stub) stub (key ac).
Proof. unfold create. handler_cases. Qed.

Lemma lock_atomic (ac : assetContext) (stub : ChaincodeStub) :
  atomic (lock ac stub) stub (key ac).
Proof. unfold lock. handler_cases. Qed.

Lemma show_atomic (ac : assetContext) (stub : ChaincodeStub) :
  atomic (show ac stub) stub (key ac).
Proof. unfold show. handler_cases. Qed.

Lemma transfer_atomic (ac : assetContext) (stub : ChaincodeStub) :
  atomic (transfer ac stub) stub (key ac).
Proof. unfold transfer. handler_cases. Qed.

(** [query] never writes. *)
Lemma query_reads_only (ac : assetContext) (stub : ChaincodeStub) :
  snd (query ac stub) = stub.
Proof.
  unfold query, marshal, ret, fail.
  destruct (functionArg ac); [|reflexivity].
  destruct (asset ac) as [a|]; [|reflexivity].
  destruct (proto_Marshal a); reflexivity.
Qed.

Lemma query_atomic (ac : assetContext) (stub : ChaincodeStub) :
  atomic (query ac stub) stub (key ac).
Proof.
  pose proof (query_reads_only ac stub) as Hq. unfold atomic.
  destruct (query ac stub) as [[assetBytes|e] stub']; simpl in Hq; auto.
Qed.

Lemma handlers_atomic (handler : assetContext -> M (list byte))
  (ac : assetContext) (stub : ChaincodeStub) :
  In handler handlers -> atomic (handler ac stub) stub (key ac).
Proof.
  unfold handlers. simpl.
  intros [<-|[<-|[<-|[<-|[<-|[]]]]]];
    auto using create_atomic, lock_atomic, show_atomic, transfer_atomic,
      query_atomic.
Qed.

(** The key an invocation operates on: its second argument. *)
Lemma newAssetContext_key (stub : ChaincodeStub) (ac : assetContext) :
  newAssetContext stub = Ok ac ->
  key ac = string_of_bytes (index (GetArgs stub) 1).
Proof.
  unfold newAssetContext, parseArgs.
  destruct (length (GetArgs stub)) as [|[|[|[|n]]]]; try discriminate;
    destruct (GetCreator stub); try discriminate;
    destruct (GetState stub _) as [[assetBytes|]|]; try discriminate;
    try destruct (proto_Unmarshal assetBytes); try discriminate;
    intros [= <-]; reflexivity.
Qed.

Lemma execute_response (ac : assetContext) (stub : ChaincodeStub) :
  (exists handler : assetContext -> M (list byte),
     In handler handlers
     /\ execute ac stub
        = match handler ac stub with
          | (Err err, stub') => (shim_Error (Error err), stub')
          | (Ok result, stub') => (shim_Success (Some result), stub')
          end)
  \/ execute ac stub = (shim_Error "Invalid invocation function", stub).
Proof.
  unfold execute, handlers.
  repeat match goal with
    | |- context [if String.eqb ?x ?y then _ else _] =>
        destruct (String.eqb x y);
        [left; eexists; split; [|reflexivity]; simpl; tauto|]
    end.
  right. reflexivity.
Qed.

(** C9. Whatever the operation and the input, an invocation that returns a
    failure leaves the ledger, and so the state stored at the asset key,
    as it was: each handler writes at most once, at the asset key and as
    its last step before returning the bytes, and returns every error
    without having written. *)
Theorem failure_writes_nothing (stub : ChaincodeStub) :
  (forall (handler : assetContext -> M (list byte)) (ac : assetContext)
          (e : error) (stub' : ChaincodeStub),
     In handler handlers ->
     handler ac stub = (Err e, stub') -> stub' = stub)
  /\ (forall (handler : assetContext -> M (list byte)) (ac : assetContext)
             (assetBytes : list byte) (stub' : ChaincodeStub),
        In handler handlers ->
        handler ac stub = (Ok assetBytes, stub') ->
        stub' = stub
        \/ exists value : list byte, stub' = written stub (key ac) value)
  /\ (forall (response : Response) (stub' : ChaincodeStub),
        Invoke stub = (response, stub') ->
        Status response <> OK ->
        stub_state stub' = stub_state stub).
Proof.
  split; [|split].
  - intros handler ac e stub' Hin Hrun.
    pose proof (handlers_atomic handler ac stub Hin) as Hat.
    rewrite Hrun in Hat. exact Hat.
  - intros handler ac assetBytes stub' Hin Hrun.
    pose proof (handlers_atomic handler ac stub Hin) as Hat.
    rewrite Hrun in Hat. exact Hat.
  - intros response stub'. unfold Invoke.
    destruct (newAssetContext stub) as [ac|err].
    + destruct (execute_response ac stub)
        as [(handler & Hin & ->)| ->].
      * pose proof (handlers_atomic handler ac stub Hin) as Hat.
        destruct (handler ac stub) as [[assetBytes|e] stub''].
        -- intros [= <- <-]. simpl. intros Hs. exfalso. apply Hs.
           reflexivity.
        -- simpl in Hat. intros [= <- <-]. intros _. rewrite Hat.
           reflexivity.
      * intros [= <- <-]. reflexivity.
    + intros [= <- <-]. reflexivity.
Qed.

(** *** The fromChannel argument of show *)

Lemma show_same_context (ac1 ac2 : assetContext) (c1 c2 : list byte)
  (stub : ChaincodeStub) :
  creator ac1 = creator ac2 ->
  asset ac1 = asset ac2 ->
  key ac1 = key ac2 ->
  functionArg ac1 = Some c1 ->
  functionArg ac2 = Some c2 ->
  show ac1 stub = show ac2 stub.
Proof.
  intros Hc Ha Hk H1 H2. unfold show.
  rewrite H1, H2, Hc, Ha, Hk. reflexivity.
Qed.

(** The outcome of [show] on stubs that differ in their arguments only. *)
Lemma show_withArgs (ac : assetContext) (stub : ChaincodeStub)
  (args1 args2 : list bytes) :
  fst (show ac (withArgs stub args1)) = fst (show ac (withArgs stub args2))
  /\ stub_state (snd (show ac (withArgs stub args1)))
     = stub_state (snd (show ac (withArgs stub args2))).
Proof.
  unfold show, bind, marshal, putState, PutState, ret, fail.
  destruct (functionArg ac); [|split; reflexivity].
  destruct (match asset ac with
            | Some a => isEmpty (LockedToChannel a)
            | None => false
            end); [split; reflexivity|].
  destruct (match asset ac with
            | Some a => Nat.leb _ (length (History a))
            | None => false
            end); [split; reflexivity|].
  destruct (proto_Marshal _) as [assetBytes|cause]; [|split; reflexivity].
  simpl.
  destruct (stub_putStateErr stub (key ac) assetBytes);
    split; reflexivity.
Qed.

(** C10. Two show invocations by the same invoker, on the same key and the
    same ledger, each with a fromChannel argument, have the same outcome
    whatever the two arguments are: the same response (success or failure,
    message, returned bytes) and the same ledger afterwards. *)
Theorem show_fromChannel_irrelevant (stub : ChaincodeStub) (k : bytes)
  (c1 c2 : list byte) :
  fst (Invoke (withArgs stub [lit "show"; k; Some c1]))
  = fst (Invoke (withArgs stub [lit "show"; k; Some c2]))
  /\ stub_state (snd (Invoke (withArgs stub [lit "show"; k; Some c1])))
     = stub_state (snd (Invoke (withArgs stub [lit "show"; k; Some c2]))).
Proof.
  unfold Invoke, newAssetContext, parseArgs, GetArgs, GetCreator, GetState,
    index.
  simpl.
  destruct (stub_creator stub) as [invoker|cause]; [|split; reflexivity].
  destruct (stub_getStateErr stub (string_of_bytes k));
    [split; reflexivity|].
  set (a1 := withArgs stub [lit "show"; k; Some c1]).
  set (a2 := withArgs stub [lit "show"; k; Some c2]).
  assert (Hshow : forall ac1 ac2 : assetContext,
            creator ac1 = creator ac2 -> asset ac1 = asset ac2 ->
            key ac1 = key ac2 ->
            function ac1 = "show" -> function ac2 = "show" ->
            functionArg ac1 = Some c1 -> functionArg ac2 = Some c2 ->
            fst (execute ac1 a1) = fst (execute ac2 a2)
            /\ stub_state (snd (execute ac1 a1))
               = stub_state (snd (execute ac2 a2))).
  { intros ac1 ac2 Hc Ha Hk Hf1 Hf2 H1 H2. unfold execute.
    rewrite Hf1, Hf2. simpl.
    rewrite (show_same_context ac1 ac2 c1 c2 a1 Hc Ha Hk H1 H2).
    destruct (show_withArgs ac2 stub [lit "show"; k; Some c1]
                [lit "show"; k; Some c2]) as [Hr Hs].
    fold a1 a2 in Hr, Hs.
    destruct (show ac2 a1) as [[b1|e1] s1], (show ac2 a2) as [[b2|e2] s2];
      simpl in *; try discriminate; split; congruence. }
  destruct (stub_state stub !! string_of_bytes k) as [assetBytes|].
  - destruct (proto_Unmarshal assetBytes) as [a|cause];
      [|split; reflexivity].
    apply Hshow; reflexivity.
  - apply Hshow; reflexivity.
Qed.

(** *** A locked asset *)

(** C7, as the code has it. On a key that holds a locked asset, every lock
    and every transfer invocation fails, whoever the invoker is: with the
    bad request of the missing argument when the argument is absent, and
    otherwise with the conflict about the existing lock. And as long as the
    history of the locked asset is not empty, no invocation of any of the
    five handlers writes to the ledger, so that nothing clears the lock. *)
Theorem locked_is_frozen (ac : assetContext) (stub : ChaincodeStub)
  (a : Asset) :
  asset ac = Some a ->
  LockedToChannel a <> EmptyString ->
  (functionArg ac = None ->
   fails (lock ac stub) ErrLockNoArg BadRequest stub
   /\ fails (transfer ac stub) ErrTransferNoArg BadRequest stub)
  /\ (forall arg : list byte,
        functionArg ac = Some arg ->
        fails (lock ac stub)
          (ErrLockLocked (key ac) (LockedToChannel a)) Conflict stub
        /\ fails (transfer ac stub) ErrTransferLocked Conflict stub)
  /\ (History a <> [] ->
      forall handler : assetContext -> M (list byte),
        In handler handlers -> snd (handler ac stub) = stub).
Proof.
  intros Ha Hl. pose proof (proj2 (nonEmpty_true _) Hl) as Hne.
  unfold fails. split; [|split].
  - intros Harg. unfold lock, transfer. rewrite Harg. repeat split.
  - intros arg Harg. unfold lock, transfer. rewrite Harg, Ha, Hne.
    repeat split.
  - intros Hh handler. unfold handlers. simpl.
    intros [<-|[<-|[<-|[<-|[<-|[]]]]]].
    + unfold create. rewrite Ha. destruct (notNil (functionArg ac));
        reflexivity.
    + unfold lock. rewrite Ha, Hne. destruct (functionArg ac); reflexivity.
    + unfold show. rewrite Ha.
      destruct (functionArg ac); [|reflexivity].
      destruct (isEmpty (LockedToChannel a)); [reflexivity|].
      destruct (History a); [contradiction|reflexivity].
    + unfold transfer. rewrite Ha, Hne.
      destruct (functionArg ac); reflexivity.
    + apply query_reads_only.
Qed.

(** *** The argument test of query *)

(** [query] returns its too-many-arguments error exactly when it was given
    no argument; with an argument it returns the serialized asset. *)
Lemma query_outcome (ac : assetContext) (stub : ChaincodeStub) :
  (functionArg ac = None ->
   fails (query ac stub) ErrQueryTooManyArgs BadRequest stub)
  /\ (forall (arg : list byte) (a : Asset) (assetBytes : list byte),
        functionArg ac = Some arg ->
        asset ac = Some a ->
        proto_Marshal a = Ok assetBytes ->
        query ac stub = (Ok assetBytes, stub)).
Proof.
  unfold fails, query, marshal, ret. split.
  - intros ->. split; reflexivity.
  - intros arg a assetBytes -> -> ->. reflexivity.
Qed.

End HandlerProperties.

(** ** Properties of an invocation *)

Section InvocationProperties.

Context `{ProtoCodec}.

(** *** The asset context *)

Lemma newAssetContext_inv (stub : ChaincodeStub) (ac : assetContext) :
  newAssetContext stub = Ok ac -> contextOf stub ac.
Proof.
  unfold newAssetContext, contextOf, parseArgs, invokedFunction, invokedKey,
    GetState.
  destruct (length (GetArgs stub)) as [|[|[|[|n]]]]; try discriminate;
    simpl;
    (destruct (GetCreator stub) as [invoker|cause]; [|discriminate]);
    (destruct (stub_getStateErr stub _) as [cause|]; [discriminate|]);
    (destruct (stub_state stub !! _) as [assetBytes|] eqn:Hstate;
     [destruct (proto_Unmarshal assetBytes) as [a|cause] eqn:Hdecode;
      [|discriminate]|]);
    intros [= <-]; simpl; repeat (split; [auto; fail|]); eauto 8.
Qed.

Lemma newAssetContext_intro (stub : ChaincodeStub) (ac : assetContext) :
  contextOf stub ac -> newAssetContext stub = Ok ac.
Proof.
  unfold contextOf, newAssetContext, parseArgs, invokedFunction, invokedKey,
    GetState.
  intros (Hlen & Hcreator & Hread & Hfunction & Hkey & Harg & Hasset).
  destruct ac as [c a f k arg]. simpl in *. subst f k.
  rewrite Hcreator.
  destruct Hlen as [Hlen|Hlen]; rewrite Hlen in *; simpl in *; subst arg;
    rewrite Hread;
    destruct Hasset as [[-> ->] | (assetBytes & a' & -> & -> & ->)];
    reflexivity.
Qed.

(** X1. [newAssetContext] returns a context exactly when the invocation has
    two or three arguments, the creator can be read, the state of the key
    can be read and, if the ledger holds bytes at the key, they decode; the
    context then holds the creator, the first argument as operation name,
    the second as key, the third (nil when there are two) as argument, and
    the decoded asset (nil when the ledger holds nothing at the key). *)
Theorem newAssetContext_ok_iff (stub : ChaincodeStub) (ac : assetContext) :
  newAssetContext stub = Ok ac <-> contextOf stub ac.
Proof.
  split; [apply newAssetContext_inv | apply newAssetContext_intro].
Qed.

(** *** Dispatch *)

Lemma execute_dispatch (ac : assetContext) (stub : ChaincodeStub) :
  (function ac = "create" -> execute ac stub = respond (create ac stub))
  /\ (function ac = "lock" -> execute ac stub = respond (lock ac stub))
  /\ (function ac = "show" -> execute ac stub = respond (show ac stub))
  /\ (function ac = "transfer" ->
      execute ac stub = respond (transfer ac stub))
  /\ (function ac = "query" -> execute ac stub = respond (query ac stub))
  /\ (~ In (function ac) operations ->
      execute ac stub = (shim_Error "Invalid invocation function", stub)).
Proof.
  unfold execute, respond, operations.
  repeat split; try (intros ->; reflexivity).
  intros Hno. simpl in Hno.
  repeat match goal with
    | |- context [String.eqb ?x ?y] =>
        destruct (String.eqb_spec x y) as [Heq|_];
        [exfalso; apply Hno; rewrite Heq; tauto|]
    end.
  reflexivity.
Qed.

(** The handlers do not read the arguments of the stub: they see them
    through the context only. *)
Lemma handler_withArgs (handler : assetContext -> M (list byte))
  (ac : assetContext) (stub : ChaincodeStub) (args : list bytes) :
  In handler handlers ->
  handler ac (withArgs stub args)
  = (fst (handler ac stub), withArgs (snd (handler ac stub)) args).
Proof.
  unfold handlers. simpl. intros [<-|[<-|[<-|[<-|[<-|[]]]]]];
    unfold create, lock, show, transfer, query, bind, marshal, putState,
      PutState, ret, fail;
    repeat match goal with
      | |- context [match ?x with _ => _ end] =>
          match x with
          | context [withArgs] => fail 1
          | _ => destruct x eqn:?; simpl; try reflexivity
          end
      | |- context [if ?x then _ else _] =>
          destruct x eqn:?; simpl; try reflexivity
      end.
Qed.

Lemma execute_withArgs (ac : assetContext) (stub : ChaincodeStub)
  (args : list bytes) :
  execute ac (withArgs stub args)
  = (fst (execute ac stub), withArgs (snd (execute ac stub)) args).
Proof.
  unfold execute.
  repeat match goal with
    | |- context [if String.eqb ?x ?y then _ else _] =>
        destruct (String.eqb x y)
    end;
    try reflexivity;
    rewrite handler_withArgs by (unfold handlers; simpl; tauto);
    match goal with
    | |- context [?h ac stub] => destruct (h ac stub) as [[?|?] ?]
    end;
    reflexivity.
Qed.

(** *** Errors of the invocation itself *)

(** X2. An invocation with no argument, with one argument, or with four or
    more is answered with the error of the argument count, whoever the
    creator is and whatever the ledger holds or refuses, and writes
    nothing. *)
Theorem Invoke_argument_count (stub : ChaincodeStub) :
  (length (GetArgs stub) = 0 ->
   Invoke stub = (shim_Error "Invoke called with no arguments", stub))
  /\ (length (GetArgs stub) = 1 ->
      Invoke stub
      = (shim_Error "Invoke called with only one argument", stub))
  /\ (4 <= length (GetArgs stub) ->
      Invoke stub
      = (shim_Error "Invoke called with too many arguments", stub)).
Proof.
  unfold Invoke, newAssetContext, parseArgs.
  repeat split; intros Hlen.
  - rewrite Hlen. reflexivity.
  - rewrite Hlen. reflexivity.
  - destruct (length (GetArgs stub)) as [|[|[|[|n]]]]; try lia.
    reflexivity.
Qed.

(** X3. With two or three arguments, the invocation fails before any
    handler runs, and writes nothing, when the creator cannot be read,
    else when the state of the key cannot be read, else when the bytes the
    ledger holds at the key do not decode; the message carries the cause,
    and the key for a failed read. This holds for every operation name,
    known or not. *)
Theorem Invoke_context_errors (stub : ChaincodeStub) :
  length (GetArgs stub) = 2 \/ length (GetArgs stub) = 3 ->
  (forall cause : string,
     GetCreator stub = Err cause ->
     Invoke stub = (shim_Error (Error (ErrGetCreator cause)), stub))
  /\ (forall (invoker : bytes) (cause : string),
        GetCreator stub = Ok invoker ->
        stub_getStateErr stub (invokedKey stub) = Some cause ->
        Invoke stub
        = (shim_Error (Error (ErrGetState (invokedKey stub) cause)), stub))
  /\ (forall (invoker : bytes) (assetBytes : list byte) (cause : string),
        GetCreator stub = Ok invoker ->
        stub_getStateErr stub (invokedKey stub) = None ->
        stub_state stub !! invokedKey stub = Some assetBytes ->
        proto_Unmarshal assetBytes = Err cause ->
        Invoke stub = (shim_Error (Error (ErrUnmarshal cause)), stub)
        /\ kindOf (ErrUnmarshal cause) = Corruption).
Proof.
  intros Hlen.
  unfold Invoke, newAssetContext, parseArgs, invokedKey, GetState.
  destruct Hlen as [Hlen|Hlen]; rewrite Hlen; simpl;
    (split; [|split]);
    [ intros cause Hc; rewrite Hc; reflexivity
    | intros invoker cause Hc Hr; rewrite Hc, Hr; reflexivity
    | intros invoker assetBytes cause Hc Hr Hs Hd; rewrite Hc, Hr, Hs, Hd;
      split; reflexivity
    | intros cause Hc; rewrite Hc; reflexivity
    | intros invoker cause Hc Hr; rewrite Hc, Hr; reflexivity
    | intros invoker assetBytes cause Hc Hr Hs Hd; rewrite Hc, Hr, Hs, Hd;
      split; reflexivity ].
Qed.

(** X4. An invocation whose context could be built and whose operation
    name is none of create, lock, show, transfer and query is answered with
    the error of the invalid function, and writes nothing. *)
Theorem Invoke_unknown_function (stub : ChaincodeStub)
  (ac : assetContext) :
  newAssetContext stub = Ok ac ->
  ~ In (invokedFunction stub) operations ->
  Invoke stub = (shim_Error "Invalid invocation function", stub).
Proof.
  intros Hac Hno. unfold Invoke. rewrite Hac.
  apply newAssetContext_inv in Hac as (_ & _ & _ & Hfunction & _).
  rewrite <- Hfunction in Hno.
  apply (execute_dispatch ac stub). exact Hno.
Qed.

(** *** What an invocation may change *)

(** X5. An invocation changes nothing of the stub but the ledger state,
    and of the ledger state nothing but the value at its own key, the
    second argument: every other key holds afterwards what it held
    before. *)
Theorem Invoke_touches_only_key (stub : ChaincodeStub) :
  stub_args (snd (Invoke stub)) = stub_args stub
  /\ stub_creator (snd (Invoke stub)) = stub_creator stub
  /\ (forall other : string,
        other <> invokedKey stub ->
        stub_state (snd (Invoke stub)) !! other = stub_state stub !! other).
Proof.
  unfold Invoke.
  destruct (newAssetContext stub) as [ac|err] eqn:Hac;
    [|repeat split; reflexivity].
  apply newAssetContext_inv in Hac as (_ & _ & _ & _ & Hkey & _).
  rewrite <- Hkey.
  destruct (execute_response ac stub) as [(handler & Hin & ->)| ->];
    [|repeat split; reflexivity].
  pose proof (handlers_atomic handler ac stub Hin) as Hat.
  destruct (handler ac stub) as [[assetBytes|e] stub']; simpl in *.
  - destruct Hat as [-> | (value & ->)]; repeat split; try reflexivity.
    intros other Hother. simpl. apply lookup_insert_ne. congruence.
  - subst stub'. repeat split; reflexivity.
Qed.

Lemma create_on_held_key (stub : ChaincodeStub) (assetBytes : list byte) :
  invokedFunction stub = "create" ->
  stub_state stub !! invokedKey stub = Some assetBytes ->
  Status (fst (Invoke stub)) = ERROR /\ snd (Invoke stub) = stub.
Proof.
  intros Hfunction Hstate. unfold Invoke.
  destruct (newAssetContext stub) as [ac|err] eqn:Hac;
    [|split; reflexivity].
  apply newAssetContext_inv in Hac
    as (_ & _ & _ & Hf & _ & _ & Hasset).
  rewrite Hfunction in Hf.
  rewrite (proj1 (execute_dispatch ac stub) Hf).
  destruct Hasset as [[Hnone _] | (assetBytes' & a & _ & _ & Ha)];
    [congruence|].
  unfold create. rewrite Ha.
  destruct (notNil (functionArg ac)); split; reflexivity.
Qed.

(** X6. Create never overwrites: when the ledger holds any bytes at the
    key, a create invocation fails, whatever its arguments and its creator
    and whether the bytes decode or not, and leaves the stub as it was. *)
Theorem create_never_overwrites (stub : ChaincodeStub)
  (assetBytes : list byte) :
  invokedFunction stub = "create" ->
  stub_state stub !! invokedKey stub = Some assetBytes ->
  Status (fst (Invoke stub)) = ERROR /\ snd (Invoke stub) = stub.
Proof. apply create_on_held_key. Qed.

(** X7. A third argument that is the nil slice counts as no third
    argument: the invocation has the response, and leaves the ledger in the
    state, of the invocation with the first two arguments alone. *)
Theorem nil_argument_is_absent (stub : ChaincodeStub) (f k : bytes) :
  fst (Invoke (withArgs stub [f; k; None]))
  = fst (Invoke (withArgs stub [f; k]))
  /\ stub_state (snd (Invoke (withArgs stub [f; k; None])))
     = stub_state (snd (Invoke (withArgs stub [f; k]))).
Proof.
  unfold Invoke.
  assert (Hsame : newAssetContext (withArgs stub [f; k; None])
                  = newAssetContext (withArgs stub [f; k]))
    by reflexivity.
  rewrite Hsame.
  destruct (newAssetContext (withArgs stub [f; k])) as [ac|err];
    [|split; reflexivity].
  rewrite !execute_withArgs. split; reflexivity.
Qed.

(** *** What a successful handler has checked and written *)

Lemma marshal_then_put_inv (a : Asset) (k : string) (stub : ChaincodeStub)
  (assetBytes : list byte) (stub' : ChaincodeStub) :
  (bs <- marshal a ;; _ <- putState k bs ;; ret bs) stub
  = (Ok assetBytes, stub') ->
  proto_Marshal a = Ok assetBytes
  /\ stub_putStateErr stub k assetBytes = None
  /\ stub' = written stub k assetBytes.
Proof.
  unfold bind, marshal, putState, PutState, ret, fail.
  destruct (proto_Marshal a) as [bs|cause]; [|discriminate].
  destruct (stub_putStateErr stub k bs) as [cause|] eqn:Hput;
    [discriminate|].
  intros [= <- <-]. auto.
Qed.

Lemma create_inv (ac : assetContext) (stub : ChaincodeStub)
  (assetBytes : list byte) (stub' : ChaincodeStub) :
  create ac stub = (Ok assetBytes, stub') ->
  functionArg ac = None
  /\ asset ac = None
  /\ proto_Marshal {| LockedToChannel := EmptyString;
                      History := [Some {| Id := creator ac |}] |}
     = Ok assetBytes
  /\ stub' = written stub (key ac) assetBytes.
Proof.
  unfold create.
  destruct (functionArg ac); [discriminate|].
  destruct (asset ac); [discriminate|]. simpl.
  intros Hrun. apply marshal_then_put_inv in Hrun as (Hm & _ & Hs). auto.
Qed.

Lemma lock_inv (ac : assetContext) (stub : ChaincodeStub)
  (assetBytes : list byte) (stub' : ChaincodeStub) :
  lock ac stub = (Ok assetBytes, stub') ->
  exists (toChannel : list byte) (a : Asset),
    functionArg ac = Some toChannel
    /\ asset ac = Some a
    /\ LockedToChannel a = EmptyString
    /\ ownedBy a (creator ac)
    /\ proto_Marshal {| LockedToChannel := string_of_list_byte toChannel;
                        History := History a |}
       = Ok assetBytes
    /\ stub' = written stub (key ac) assetBytes.
Proof.
  unfold lock.
  destruct (functionArg ac) as [toChannel|]; [|discriminate].
  destruct (asset ac) as [a|] eqn:Ha; [|discriminate].
  destruct (nonEmpty (LockedToChannel a)) eqn:Hl; [discriminate|].
  destruct (ownsAsset ac) eqn:Ho; [|discriminate]. simpl.
  intros Hrun. apply marshal_then_put_inv in Hrun as (Hm & _ & Hs).
  exists toChannel, a. apply nonEmpty_false in Hl.
  apply (ownsAsset_ownedBy ac a Ha) in Ho. auto 7.
Qed.

Lemma show_inv (ac : assetContext) (stub : ChaincodeStub)
  (assetBytes : list byte) (stub' : ChaincodeStub) :
  show ac stub = (Ok assetBytes, stub') ->
  (asset ac = None
   \/ exists a : Asset,
        asset ac = Some a
        /\ LockedToChannel a <> EmptyString /\ History a = [])
  /\ proto_Marshal {| LockedToChannel := EmptyString;
                      History := [Some {| Id := creator ac |};
                                  Some {| Id := creator ac |}] |}
     = Ok assetBytes
  /\ stub' = written stub (key ac) assetBytes.
Proof.
  unfold show.
  destruct (functionArg ac) as [fromChannel|]; [|discriminate].
  destruct (asset ac) as [a|].
  - destruct (isEmpty (LockedToChannel a)) eqn:Hl; [discriminate|].
    simpl. destruct (History a) as [|o h] eqn:Hh; [|discriminate]. simpl.
    intros Hrun. apply marshal_then_put_inv in Hrun as (Hm & _ & Hs).
    split; [|auto]. right. exists a. repeat split; auto.
    intros He. apply isEmpty_true in He. congruence.
  - simpl. intros Hrun.
    apply marshal_then_put_inv in Hrun as (Hm & _ & Hs). auto.
Qed.

Lemma transfer_inv (ac : assetContext) (stub : ChaincodeStub)
  (assetBytes : list byte) (stub' : ChaincodeStub) :
  transfer ac stub = (Ok assetBytes, stub') ->
  exists (toID : list byte) (a : Asset),
    functionArg ac = Some toID
    /\ asset ac = Some a
    /\ LockedToChannel a = EmptyString
    /\ ownedBy a (creator ac)
    /\ proto_Marshal {| LockedToChannel := EmptyString;
                        History := History a ++ [Some {| Id := Some toID |}] |}
       = Ok assetBytes
    /\ stub' = written stub (key ac) assetBytes.
Proof.
  unfold transfer.
  destruct (functionArg ac) as [toID|]; [|discriminate].
  destruct (asset ac) as [a|] eqn:Ha; [|discriminate].
  destruct (nonEmpty (LockedToChannel a)) eqn:Hl; [discriminate|].
  destruct (ownsAsset ac) eqn:Ho; [|discriminate]. simpl.
  apply nonEmpty_false in Hl. rewrite Hl.
  intros Hrun. apply marshal_then_put_inv in Hrun as (Hm & _ & Hs).
  exists toID, a. apply (ownsAsset_ownedBy ac a Ha) in Ho. auto 7.
Qed.

(** X8. Lock and transfer succeed for the current owner only: when either
    returns bytes, its argument was present, the key held an asset, the
    asset was not locked, and the invoker was the last owner of its
    history. *)
Theorem mutation_requires_ownership
  (handler : assetContext -> M (list byte)) (ac : assetContext)
  (stub : ChaincodeStub) (assetBytes : list byte) (stub' : ChaincodeStub) :
  In handler [lock; transfer] ->
  handler ac stub = (Ok assetBytes, stub') ->
  exists (arg : list byte) (a : Asset),
    functionArg ac = Some arg
    /\ asset ac = Some a
    /\ LockedToChannel a = EmptyString
    /\ ownedBy a (creator ac).
Proof.
  simpl. intros [<-|[<-|[]]] Hrun.
  - apply lock_inv in Hrun as (arg & a & ? & ? & ? & ? & _). eauto 6.
  - apply transfer_inv in Hrun as (arg & a & ? & ? & ? & ? & _). eauto 6.
Qed.

(** X9. What create, lock, show and transfer return is what the ledger
    holds at the key afterwards, and it is the encoding of an asset whose
    history is not empty and ends with an owner that is present: the
    chaincode never writes an asset without a current owner. *)
Theorem written_asset_has_owner
  (handler : assetContext -> M (list byte)) (ac : assetContext)
  (stub : ChaincodeStub) (assetBytes : list byte) (stub' : ChaincodeStub) :
  In handler writers ->
  handler ac stub = (Ok assetBytes, stub') ->
  stub_state stub' !! key ac = Some assetBytes
  /\ exists (a' : Asset) (earlier : list (option Owner)) (o : Owner),
       proto_Marshal a' = Ok assetBytes
       /\ History a' = earlier ++ [Some o].
Proof.
  unfold writers. simpl. intros [<-|[<-|[<-|[<-|[]]]]] Hrun.
  - apply create_inv in Hrun as (_ & _ & Hm & ->).
    split; [apply lookup_insert_eq|].
    eexists _, [], _. split; [exact Hm|reflexivity].
  - apply lock_inv in Hrun
      as (arg & a & _ & _ & _ & (earlier & o & Hh & _) & Hm & ->).
    split; [apply lookup_insert_eq|].
    eexists _, earlier, o. split; [exact Hm|exact Hh].
  - apply show_inv in Hrun as (_ & Hm & ->).
    split; [apply lookup_insert_eq|].
    eexists _, [_], _. split; [exact Hm|reflexivity].
  - apply transfer_inv in Hrun as (arg & a & _ & _ & _ & _ & Hm & ->).
    split; [apply lookup_insert_eq|].
    eexists _, (History a), _. split; [exact Hm|reflexivity].
Qed.

(** X10. The history is append-only: when create, lock, show or transfer
    writes on a key that held an asset, the asset it encodes has the former
    history as a prefix of its own. *)
Theorem history_append_only
  (handler : assetContext -> M (list byte)) (ac : assetContext)
  (stub : ChaincodeStub) (a : Asset) (assetBytes : list byte)
  (stub' : ChaincodeStub) :
  In handler writers ->
  asset ac = Some a ->
  handler ac stub = (Ok assetBytes, stub') ->
  exists (a' : Asset) (later : list (option Owner)),
    proto_Marshal a' = Ok assetBytes
    /\ History a' = History a ++ later.
Proof.
  unfold writers. simpl. intros [<-|[<-|[<-|[<-|[]]]]] Ha Hrun.
  - apply create_inv in Hrun as (_ & Hnone & _). congruence.
  - apply lock_inv in Hrun as (arg & a0 & _ & Ha0 & _ & _ & Hm & _).
    assert (a0 = a) as -> by congruence.
    eexists _, []. split; [exact Hm|]. simpl. rewrite app_nil_r.
    reflexivity.
  - apply show_inv in Hrun as ([Hnone|(a0 & Ha0 & _ & Hh)] & Hm & _);
      [congruence|].
    assert (a0 = a) as -> by congruence.
    eexists _, _. split; [exact Hm|]. rewrite Hh. reflexivity.
  - apply transfer_inv in Hrun as (arg & a0 & _ & Ha0 & _ & _ & Hm & _).
    assert (a0 = a) as -> by congruence.
    eexists _, _. split; [exact Hm|]. reflexivity.
Qed.

Lemma ownedBy_snoc (a : Asset) (earlier : list (option Owner)) (o : Owner)
  (x : bytes) :
  History a = earlier ++ [Some o] ->
  (ownedBy a x <-> contents x = contents (Id o)).
Proof.
  intros Hh. unfold ownedBy. split.
  - intros (earlier' & o' & Heq & Hid). rewrite Hh in Heq.
    apply app_inj_tail in Heq as [_ Heq]. congruence.
  - intros Hid. exists earlier, o. auto.
Qed.

(** X11. Who owns the asset after a write. After create and after show the
    owners of the written asset are the identities that equal the invoker
    byte for byte; after transfer they are the identities that equal the
    toOwnerId argument, so that the invoker keeps the asset only by
    transferring it to itself; after lock the invoker still owns it. *)
Theorem owner_after_write (ac : assetContext) (stub : ChaincodeStub)
  (assetBytes : list byte) (stub' : ChaincodeStub) :
  (create ac stub = (Ok assetBytes, stub')
   \/ show ac stub = (Ok assetBytes, stub') ->
   exists a' : Asset,
     proto_Marshal a' = Ok assetBytes
     /\ forall x : bytes,
          ownedBy a' x <-> contents x = contents (creator ac))
  /\ (transfer ac stub = (Ok assetBytes, stub') ->
      exists (a' : Asset) (toOwnerId : list byte),
        functionArg ac = Some toOwnerId
        /\ proto_Marshal a' = Ok assetBytes
        /\ forall x : bytes, ownedBy a' x <-> contents x = toOwnerId)
  /\ (lock ac stub = (Ok assetBytes, stub') ->
      exists a' : Asset,
        proto_Marshal a' = Ok assetBytes /\ ownedBy a' (creator ac)).
Proof.
  split; [|split].
  - intros [Hrun|Hrun].
    + apply create_inv in Hrun as (_ & _ & Hm & _).
      eexists. split; [exact Hm|]. intros x.
      apply (ownedBy_snoc _ [] {| Id := creator ac |}). reflexivity.
    + apply show_inv in Hrun as (_ & Hm & _).
      eexists. split; [exact Hm|]. intros x.
      apply (ownedBy_snoc _ [Some {| Id := creator ac |}]
               {| Id := creator ac |}). reflexivity.
  - intros Hrun.
    apply transfer_inv in Hrun as (toID & a & Harg & _ & _ & _ & Hm & _).
    eexists _, toID. split; [exact Harg|]. split; [exact Hm|]. intros x.
    apply (ownedBy_snoc _ (History a) {| Id := Some toID |}). reflexivity.
  - intros Hrun.
    apply lock_inv in Hrun as (arg & a & _ & _ & _ & Hown & Hm & _).
    eexists. split; [exact Hm|]. exact Hown.
Qed.

(** X12. The channel name is not checked for emptiness: a lock by the
    owner with an empty, non-nil toChannel argument succeeds, and what it
    writes and returns is the encoding of the asset as it was, still
    unlocked. *)
Theorem lock_empty_channel (ac : assetContext) (stub : ChaincodeStub)
  (a : Asset) (assetBytes : list byte) :
  functionArg ac = Some [] ->
  asset ac = Some a ->
  LockedToChannel a = EmptyString ->
  ownedBy a (creator ac) ->
  proto_Marshal a = Ok assetBytes ->
  stub_putStateErr stub (key ac) assetBytes = None ->
  lock ac stub = (Ok assetBytes, written stub (key ac) assetBytes).
Proof.
  intros Harg Ha Hl Hown Hm Hp. unfold lock. rewrite Harg, Ha.
  rewrite (proj2 (nonEmpty_false _) Hl).
  rewrite (proj2 (ownsAsset_ownedBy ac a Ha) Hown). simpl.
  apply marshal_then_put; [|exact Hp].
  destruct a as [l h]. simpl in *. subst l. exact Hm.
Qed.

(** *** Query at the level of the invocation *)

Lemma execute_query (ac : assetContext) (stub : ChaincodeStub) :
  function ac = "query" -> execute ac stub = respond (query ac stub).
Proof. apply (execute_dispatch ac stub). Qed.

Lemma query_result (ac1 ac2 : assetContext) (stub1 stub2 : ChaincodeStub) :
  asset ac1 = asset ac2 ->
  functionArg ac1 = functionArg ac2 ->
  fst (query ac1 stub1) = fst (query ac2 stub2).
Proof.
  intros Ha Harg. unfold query, marshal, ret, fail. rewrite Ha, Harg.
  destruct (functionArg ac2); [|reflexivity].
  destruct (asset ac2) as [a|]; [|reflexivity].
  destruct (proto_Marshal a); reflexivity.
Qed.

(** X13. A query invocation never writes, and asks for no authorization:
    the stub after it is the stub before it, and its response is the same
    whoever the creator of the transaction is. *)
Theorem query_reads_for_anyone (stub : ChaincodeStub) :
  invokedFunction stub = "query" ->
  snd (Invoke stub) = stub
  /\ forall c1 c2 : bytes,
       fst (Invoke (withCreator stub (Ok c1)))
       = fst (Invoke (withCreator stub (Ok c2))).
Proof.
  intros Hfunction. split.
  - unfold Invoke.
    destruct (newAssetContext stub) as [ac|err] eqn:Hac; [|reflexivity].
    apply newAssetContext_inv in Hac as (_ & _ & _ & Hf & _).
    rewrite Hfunction in Hf.
    rewrite (execute_query ac stub Hf). unfold respond.
    pose proof (query_reads_only ac stub) as Hq.
    destruct (query ac stub) as [[assetBytes|e] stub']; exact Hq.
  - intros c1 c2.
    assert (Hrun : forall ac1 ac2 : assetContext,
              function ac1 = "query" -> function ac2 = "query" ->
              asset ac1 = asset ac2 -> functionArg ac1 = functionArg ac2 ->
              fst (execute ac1 (withCreator stub (Ok c1)))
              = fst (execute ac2 (withCreator stub (Ok c2)))).
    { intros ac1 ac2 Hf1 Hf2 Ha Harg.
      rewrite (execute_query ac1 _ Hf1), (execute_query ac2 _ Hf2).
      pose proof (query_result ac1 ac2 (withCreator stub (Ok c1))
                    (withCreator stub (Ok c2)) Ha Harg) as Hq.
      unfold respond.
      destruct (query ac1 _) as [[b1|e1] s1], (query ac2 _) as [[b2|e2] s2];
        simpl in *; congruence. }
    unfold invokedFunction, GetArgs in Hfunction.
    unfold Invoke, newAssetContext, parseArgs, GetArgs, GetCreator,
      GetState.
    simpl.
    destruct (length (stub_args stub)) as [|[|[|[|n]]]]; try reflexivity;
      (destruct (stub_getStateErr stub _); [reflexivity|]);
      (destruct (stub_state stub !! _) as [assetBytes|];
       [destruct (proto_Unmarshal assetBytes); [|reflexivity]|]);
      apply Hrun; auto.
Qed.

(** *** A locked asset, at the level of the invocation *)

Lemma locked_handlers_write_nothing
  (handler : assetContext -> M (list byte)) (ac : assetContext)
  (stub : ChaincodeStub) (a : Asset) :
  asset ac = Some a ->
  LockedToChannel a <> EmptyString ->
  History a <> [] ->
  In handler handlers ->
  snd (handler ac stub) = stub.
Proof.
  intros Ha Hl Hh. apply nonEmpty_true in Hl as Hne.
  unfold handlers. simpl. intros [<-|[<-|[<-|[<-|[<-|[]]]]]].
  - unfold create. rewrite Ha.
    destruct (notNil (functionArg ac)); reflexivity.
  - unfold lock. rewrite Ha, Hne. destruct (functionArg ac); reflexivity.
  - unfold show. rewrite Ha.
    destruct (functionArg ac); [|reflexivity].
    destruct (isEmpty (LockedToChannel a)); [reflexivity|].
    destruct (History a); [contradiction|reflexivity].
  - unfold transfer. rewrite Ha, Hne.
    destruct (functionArg ac); reflexivity.
  - apply query_reads_only.
Qed.

(** X14. While the bytes the ledger holds at a key decode to a locked
    asset with a history that is not empty, no invocation on that key
    changes anything: whatever the operation name, the arguments and the
    creator, the stub after the invocation is the stub before it. *)
Theorem locked_asset_never_rewritten (stub : ChaincodeStub)
  (assetBytes : list byte) (a : Asset) :
  stub_state stub !! invokedKey stub = Some assetBytes ->
  proto_Unmarshal assetBytes = Ok a ->
  LockedToChannel a <> EmptyString ->
  History a <> [] ->
  snd (Invoke stub) = stub.
Proof.
  intros Hstate Hdecode Hl Hh. unfold Invoke.
  destruct (newAssetContext stub) as [ac|err] eqn:Hac; [|reflexivity].
  apply newAssetContext_inv in Hac as (_ & _ & _ & _ & _ & _ & Hasset).
  destruct Hasset as [[Hnone _] | (bs & a' & Hbs & Hd & Ha)];
    [congruence|].
  assert (a' = a) as -> by congruence.
  destruct (execute_response ac stub) as [(handler & Hin & ->)| ->];
    [|reflexivity].
  pose proof (locked_handlers_write_nothing handler ac stub a Ha Hl Hh Hin)
    as Hfrozen.
  destruct (handler ac stub) as [[b|e] stub']; exact Hfrozen.
Qed.

(** *** Errors of the collaborators *)

Lemma marshal_then_put_err (a : Asset) (k : string) (stub : ChaincodeStub)
  (e : error) (stub' : ChaincodeStub) :
  (bs <- marshal a ;; _ <- putState k bs ;; ret bs) stub = (Err e, stub') ->
  (exists cause : string,
     e = ErrMarshal cause /\ proto_Marshal a = Err cause)
  \/ (exists (value : list byte) (cause : string),
        e = ErrPutState k cause /\ proto_Marshal a = Ok value
        /\ stub_putStateErr stub k value = Some cause).
Proof.
  unfold bind, marshal, putState, PutState, ret, fail.
  destruct (proto_Marshal a) as [bs|cause].
  - destruct (stub_putStateErr stub k bs) as [cause|] eqn:Hput;
      [|discriminate].
    intros [= <- _]. right. eauto.
  - intros [= <- _]. left. eauto.
Qed.

(** X15. A handler fails for one of two reasons only. Either a
    precondition of the operation does not hold, and the error is a bad
    request, a not-found, a conflict or an unauthorized; or a collaborator
    failed, and the error carries its cause: the codec could not encode the
    asset, or the ledger refused the write at the key of the invocation.
    No handler reports a decoding error. *)
Theorem handler_failures (handler : assetContext -> M (list byte))
  (ac : assetContext) (stub : ChaincodeStub) (e : error)
  (stub' : ChaincodeStub) :
  In handler handlers ->
  handler ac stub = (Err e, stub') ->
  In (kindOf e) [BadRequest; NotFound; Conflict; Unauthorized]
  \/ (exists (a : Asset) (cause : string),
        e = ErrMarshal cause /\ proto_Marshal a = Err cause)
  \/ (exists (a : Asset) (value : list byte) (cause : string),
        e = ErrPutState (key ac) cause
        /\ proto_Marshal a = Ok value
        /\ stub_putStateErr stub (key ac) value = Some cause).
Proof.
  unfold handlers. simpl. intros [<-|[<-|[<-|[<-|[<-|[]]]]]];
    unfold create, lock, show, transfer, query;
    repeat match goal with
      | |- (fail _ _ = _) -> _ =>
          unfold fail; intros [= <- _]; left; simpl; tauto
      | |- (bind _ _ _ = _) -> _ =>
          intros Hrun; apply marshal_then_put_err in Hrun
            as [(cause & -> & Hm)|(value & cause & -> & Hm & Hp)];
          [right; left; eauto | right; right; eauto 7]
      | |- (marshal ?a _ = _) -> _ =>
          unfold marshal, ret, fail;
          destruct (proto_Marshal a) as [bs|cause] eqn:Hm;
          [discriminate | intros [= <- _]; right; left; eauto]
      | |- ((if ?c then _ else _) _ = _) -> _ => destruct c
      | |- ((match ?x with _ => _ end) _ = _) -> _ => destruct x
      end.
Qed.

(** *** Ownership *)

(** X16. [ownsAsset] answers true exactly when the key holds an asset, the
    history of the asset is not empty, its last entry is present, and the
    id of that entry has the bytes of the creator; the earlier entries do
    not matter, and a nil id equals an empty one. *)
Theorem ownsAsset_true_iff (ac : assetContext) :
  ownsAsset ac = true
  <-> exists (a : Asset) (earlier : list (option Owner)) (o : Owner),
        asset ac = Some a
        /\ History a = earlier ++ [Some o]
        /\ contents (Id o) = contents (creator ac).
Proof.
  split.
  - intros Ho. destruct (asset ac) as [a|] eqn:Ha.
    + destruct (proj1 (ownsAsset_ownedBy ac a Ha) Ho)
        as (earlier & o & Hh & Hid).
      exists a, earlier, o. auto.
    + unfold ownsAsset in Ho. rewrite Ha in Ho. discriminate.
  - intros (a & earlier & o & Ha & Hh & Hid).
    apply (ownsAsset_ownedBy ac a Ha). exists earlier, o. auto.
Qed.

(** *** The invocations that succeed *)

Lemma show_arg (ac : assetContext) (stub : ChaincodeStub)
  (assetBytes : list byte) (stub' : ChaincodeStub) :
  show ac stub = (Ok assetBytes, stub') -> functionArg ac <> None.
Proof.
  unfold show. destruct (functionArg ac); [discriminate|]. discriminate.
Qed.

Lemma query_arg (ac : assetContext) (stub : ChaincodeStub)
  (assetBytes : list byte) (stub' : ChaincodeStub) :
  query ac stub = (Ok assetBytes, stub') -> functionArg ac <> None.
Proof.
  unfold query. destruct (functionArg ac); [discriminate|]. discriminate.
Qed.

Lemma respond_OK (outcome : result error (list byte) * ChaincodeStub) :
  Status (fst (respond outcome)) = OK ->
  exists (assetBytes : list byte) (stub' : ChaincodeStub),
    outcome = (Ok assetBytes, stub').
Proof.
  destruct outcome as [[assetBytes|e] stub']; simpl.
  - eauto.
  - discriminate.
Qed.

(** X17. The invocations that succeed have one of two shapes: a create
    with no third argument, or with a nil one; or a lock, show, transfer or
    query with exactly three arguments, the third not nil. In particular
    no query with two arguments succeeds. *)
Theorem Invoke_success_arity (stub : ChaincodeStub) :
  Status (fst (Invoke stub)) = OK ->
  (invokedFunction stub = "create"
   /\ (length (GetArgs stub) = 2
       \/ (length (GetArgs stub) = 3 /\ index (GetArgs stub) 2 = None)))
  \/ (In (invokedFunction stub) ["lock"; "show"; "transfer"; "query"]
      /\ length (GetArgs stub) = 3
      /\ index (GetArgs stub) 2 <> None).
Proof.
  unfold Invoke.
  destruct (newAssetContext stub) as [ac|err] eqn:Hac; [|discriminate].
  apply newAssetContext_inv in Hac
    as (Hlen & _ & _ & Hf & _ & Harg & _).
  rewrite <- Hf.
  assert (Hpresent : functionArg ac <> None ->
            length (GetArgs stub) = 3 /\ index (GetArgs stub) 2 <> None).
  { intros Hsome. destruct Hlen as [Hlen|Hlen]; rewrite Hlen in Harg;
      simpl in Harg; [congruence|]. split; congruence. }
  assert (Habsent : functionArg ac = None ->
            length (GetArgs stub) = 2
            \/ (length (GetArgs stub) = 3 /\ index (GetArgs stub) 2 = None)).
  { intros Hnone. destruct Hlen as [Hlen|Hlen]; [left; exact Hlen|].
    right. rewrite Hlen in Harg. simpl in Harg. split; congruence. }
  destruct (execute_dispatch ac stub)
    as (Hcreate & Hlock & Hshow & Htransfer & Hquery & Hother).
  destruct (in_dec String.string_dec (function ac) operations)
    as [Hin|Hno]; [|rewrite (Hother Hno); discriminate].
  simpl in Hin.
  destruct Hin as [Hop|[Hop|[Hop|[Hop|[Hop|[]]]]]]; symmetry in Hop.
  - rewrite (Hcreate Hop). intros Hok.
    apply respond_OK in Hok as (assetBytes & stub' & Hrun).
    apply create_inv in Hrun as (Hnone & _). left. auto.
  - rewrite (Hlock Hop). intros Hok.
    apply respond_OK in Hok as (assetBytes & stub' & Hrun).
    apply lock_inv in Hrun as (arg & a & Hsome & _).
    right. split; [rewrite Hop; simpl; tauto|].
    apply Hpresent. congruence.
  - rewrite (Hshow Hop). intros Hok.
    apply respond_OK in Hok as (assetBytes & stub' & Hrun).
    apply show_arg in Hrun.
    right. split; [rewrite Hop; simpl; tauto|]. auto.
  - rewrite (Htransfer Hop). intros Hok.
    apply respond_OK in Hok as (assetBytes & stub' & Hrun).
    apply transfer_inv in Hrun as (arg & a & Hsome & _).
    right. split; [rewrite Hop; simpl; tauto|].
    apply Hpresent. congruence.
  - rewrite (Hquery Hop). intros Hok.
    apply respond_OK in Hok as (assetBytes & stub' & Hrun).
    apply query_arg in Hrun.
    right. split; [rewrite Hop; simpl; tauto|]. auto.
Qed.

(** *** Two invocations in a row *)

(** X18. No double create: after a create invocation has succeeded, every
    create invocation on the same key and on the ledger it left fails,
    whoever its creator is and whatever the codec does with the stored
    bytes, and writes nothing. *)
Theorem no_double_create (first second : ChaincodeStub) :
  invokedFunction first = "create" ->
  Status (fst (Invoke first)) = OK ->
  invokedFunction second = "create" ->
  invokedKey second = invokedKey first ->
  stub_state second = stub_state (snd (Invoke first)) ->
  Status (fst (Invoke second)) = ERROR /\ snd (Invoke second) = second.
Proof.
  intros Hf1 Hok Hf2 Hkey Hstate.
  assert (Hheld : exists assetBytes : list byte,
            stub_state (snd (Invoke first)) !! invokedKey first
            = Some assetBytes).
  { revert Hok. unfold Invoke.
    destruct (newAssetContext first) as [ac|err] eqn:Hac; [|discriminate].
    apply newAssetContext_inv in Hac as (_ & _ & _ & Hf & Hk & _).
    rewrite Hf1 in Hf.
    rewrite (proj1 (execute_dispatch ac first) Hf). intros Hok.
    apply respond_OK in Hok as (assetBytes & stub' & Hrun). rewrite Hrun.
    apply create_inv in Hrun as (_ & _ & _ & ->). simpl.
    exists assetBytes. rewrite Hk. apply lookup_insert_eq. }
  destruct Hheld as (assetBytes & Hheld).
  apply (create_on_held_key second assetBytes Hf2).
  rewrite Hstate, Hkey. exact Hheld.
Qed.

End InvocationProperties.

Section ScenarioExamples.

#[local] Existing Instance Wire.codec.

Example scenario_create :
  Invoke (Scenario.invocation Scenario.A ["create"; "assetA"] ∅)
  = (shim_Success (Some (Scenario.encoded Scenario.created)),
     Scenario.invocation Scenario.A ["create"; "assetA"]
       (Scenario.ledger Scenario.created)).
Proof. vm_compute. reflexivity. Qed.

Example scenario_lock :
  Invoke (Scenario.invocation Scenario.A ["lock"; "assetA"; "channel2"]
            (Scenario.ledger Scenario.created))
  = (shim_Success (Some (Scenario.encoded Scenario.locked)),
     Scenario.invocation Scenario.A ["lock"; "assetA"; "channel2"]
       (Scenario.ledger Scenario.locked)).
Proof. vm_compute. reflexivity. Qed.

Example scenario_transfer_locked :
  Invoke (Scenario.invocation Scenario.A ["transfer"; "assetA"; "B"]
            (Scenario.ledger Scenario.locked))
  = (shim_Error
       "Cannot transfer an asset which has been locked to another channel",
     Scenario.invocation Scenario.A ["transfer"; "assetA"; "B"]
       (Scenario.ledger Scenario.locked)).
Proof. vm_compute. reflexivity. Qed.

Example scenario_create_twice :
  Invoke (Scenario.invocation Scenario.B ["create"; "assetA"]
            (Scenario.ledger Scenario.created))
  = (shim_Error "Cannot create an asset who's key already exists",
     Scenario.invocation Scenario.B ["create"; "assetA"]
       (Scenario.ledger Scenario.created)).
Proof. vm_compute. reflexivity. Qed.

Example scenario_create_extra :
  fst (Invoke (Scenario.invocation Scenario.A ["create"; "assetA"; "extra"] ∅))
  = shim_Error "Too many arguments to 'create'".
Proof. vm_compute. reflexivity. Qed.

(** C1, on the code. The chaincode documents the invocation
    [["query", <asset_key>]], yet a query with exactly these two arguments,
    on a key that holds an asset, is answered with the error of too many
    arguments; the query succeeds, and returns the serialized asset without
    writing, when a third argument is given. *)
Theorem query_argument_test_inverted :
  Invoke (Scenario.invocation Scenario.B ["query"; "assetA"]
            (Scenario.ledger Scenario.locked))
  = (shim_Error "Too many args to 'query'",
     Scenario.invocation Scenario.B ["query"; "assetA"]
       (Scenario.ledger Scenario.locked))
  /\ Invoke (Scenario.invocation Scenario.B ["query"; "assetA"; "extra"]
               (Scenario.ledger Scenario.locked))
     = (shim_Success (Some (Scenario.encoded Scenario.locked)),
        Scenario.invocation Scenario.B ["query"; "assetA"; "extra"]
          (Scenario.ledger Scenario.locked)).
Proof. split; vm_compute; reflexivity. Qed.

(** *** The theorems at concrete invocations *)

Lemma create_spec_witness :
  let stub := Scenario.invocation Scenario.A ["create"; "assetA"] ∅ in
  create (Scenario.context Scenario.A "create" None None) stub
  = (Ok (Scenario.encoded Scenario.created),
     written stub "assetA" (Scenario.encoded Scenario.created))
  /\ fails (create (Scenario.context Scenario.B "create"
                      (Some Scenario.created) None) stub)
       ErrCreateExists Conflict stub.
Proof.
  intros stub. split.
  - apply (proj2 (create_spec
                    (Scenario.context Scenario.A "create" None None) stub
                    eq_refl)).
    + reflexivity.
    + vm_compute. reflexivity.
    + reflexivity.
  - apply (proj1 (create_spec
                    (Scenario.context Scenario.B "create"
                       (Some Scenario.created) None) stub eq_refl)
             Scenario.created).
    reflexivity.
Defined.

Lemma show_absent_witness :
  let stub := Scenario.invocation Scenario.B ["show"; "assetA"; "channel1"] ∅
  in
  show (Scenario.context Scenario.B "show" None (lit "channel1")) stub
  = (Ok (Scenario.encoded (Scenario.shown Scenario.B)),
     written stub "assetA" (Scenario.encoded (Scenario.shown Scenario.B))).
Proof.
  intros stub.
  apply (show_absent (Scenario.context Scenario.B "show" None (lit "channel1"))
           stub (list_byte_of_string "channel1")).
  - reflexivity.
  - reflexivity.
  - vm_compute. reflexivity.
  - reflexivity.
Defined.

Lemma show_existing_witness :
  let stub := Scenario.invocation Scenario.B ["show"; "assetA"; "channel1"] ∅
  in
  fails (show (Scenario.context Scenario.B "show" (Some Scenario.created)
                 (lit "channel1")) stub) ErrShowUnlocked Conflict stub
  /\ fails (show (Scenario.context Scenario.B "show" (Some Scenario.locked)
                    (lit "channel1")) stub) ErrShowNewer Conflict stub
  /\ (show (Scenario.context Scenario.B "show"
             (Some Scenario.lockedNoHistory) (lit "channel1")) stub
      = (Ok (Scenario.encoded (Scenario.shown Scenario.B)),
         written stub "assetA" (Scenario.encoded (Scenario.shown Scenario.B)))
      /\ LockedToChannel Scenario.lockedNoHistory <> EmptyString
      /\ History Scenario.lockedNoHistory = []).
Proof.
  intros stub. split; [|split].
  - apply (proj1 (show_existing
                    (Scenario.context Scenario.B "show"
                       (Some Scenario.created) (lit "channel1")) stub
                    (list_byte_of_string "channel1") Scenario.created
                    eq_refl eq_refl)).
    reflexivity.
  - apply (proj1 (proj2 (show_existing
                           (Scenario.context Scenario.B "show"
                              (Some Scenario.locked) (lit "channel1")) stub
                           (list_byte_of_string "channel1") Scenario.locked
                           eq_refl eq_refl))).
    + discriminate.
    + simpl. lia.
  - assert (Hshow :
      show (Scenario.context Scenario.B "show"
              (Some Scenario.lockedNoHistory) (lit "channel1")) stub
      = (Ok (Scenario.encoded (Scenario.shown Scenario.B)),
         written stub "assetA"
           (Scenario.encoded (Scenario.shown Scenario.B))))
      by (vm_compute; reflexivity).
    split; [exact Hshow|].
    destruct (show_existing
                (Scenario.context Scenario.B "show"
                   (Some Scenario.lockedNoHistory) (lit "channel1")) stub
                (list_byte_of_string "channel1") Scenario.lockedNoHistory
                eq_refl eq_refl) as (_ & _ & Hpersists).
    exact (Hpersists _ _ Hshow).
Defined.

Lemma owned_by_A : ownedBy Scenario.created Scenario.A.
Proof. exists [], {| Id := Scenario.A |}. split; reflexivity. Defined.

Lemma not_owned_by_B : ~ ownedBy Scenario.created Scenario.B.
Proof.
  intros (earlier & o & Heq & Hid).
  change (History Scenario.created) with ([] ++ [Some {| Id := Scenario.A |}])
    in Heq.
  apply app_inj_tail in Heq as [_ Heq]. injection Heq as <-.
  discriminate.
Defined.

Lemma lock_spec_witness :
  let stub :=
    Scenario.invocation Scenario.A ["lock"; "assetA"; "channel2"]
      (Scenario.ledger Scenario.created) in
  lock (Scenario.context Scenario.A "lock" (Some Scenario.created)
          (lit "channel2")) stub
  = (Ok (Scenario.encoded Scenario.locked),
     written stub "assetA" (Scenario.encoded Scenario.locked))
  /\ fails (lock (Scenario.context Scenario.B "lock" (Some Scenario.created)
                    (lit "channel2")) stub)
       (ErrLockUnauthorized "assetA") Unauthorized stub
  /\ fails (lock (Scenario.context Scenario.A "lock" (Some Scenario.locked)
                    (lit "channel3")) stub)
       (ErrLockLocked "assetA" "channel2") Conflict stub
  /\ fails (lock (Scenario.context Scenario.A "lock" None (lit "channel2"))
               stub) ErrLockMissing NotFound stub
  /\ fails (lock (Scenario.context Scenario.A "lock" (Some Scenario.created)
                    None) stub) ErrLockNoArg BadRequest stub.
Proof.
  intros stub. split; [|split; [|split; [|split]]].
  - destruct (lock_spec
                (Scenario.context Scenario.A "lock" (Some Scenario.created)
                   (lit "channel2")) stub) as [_ Harg].
    destruct (Harg (list_byte_of_string "channel2") eq_refl) as [_ Hasset].
    destruct (Hasset Scenario.created eq_refl) as (_ & _ & Hok).
    apply Hok.
    + reflexivity.
    + exact owned_by_A.
    + vm_compute. reflexivity.
    + reflexivity.
  - destruct (lock_spec
                (Scenario.context Scenario.B "lock" (Some Scenario.created)
                   (lit "channel2")) stub) as [_ Harg].
    destruct (Harg (list_byte_of_string "channel2") eq_refl) as [_ Hasset].
    destruct (Hasset Scenario.created eq_refl) as (_ & Hunauthorized & _).
    apply Hunauthorized.
    + reflexivity.
    + exact not_owned_by_B.
  - destruct (lock_spec
                (Scenario.context Scenario.A "lock" (Some Scenario.locked)
                   (lit "channel3")) stub) as [_ Harg].
    destruct (Harg (list_byte_of_string "channel3") eq_refl) as [_ Hasset].
    destruct (Hasset Scenario.locked eq_refl) as (Hlocked & _ & _).
    apply Hlocked. discriminate.
  - destruct (lock_spec
                (Scenario.context Scenario.A "lock" None (lit "channel2"))
                stub) as [_ Harg].
    destruct (Harg (list_byte_of_string "channel2") eq_refl) as [Hmissing _].
    apply Hmissing. reflexivity.
  - destruct (lock_spec
                (Scenario.context Scenario.A "lock" (Some Scenario.created)
                   None) stub) as [Hnoarg _].
    apply Hnoarg. reflexivity.
Defined.

Lemma transfer_spec_witness :
  let stub :=
    Scenario.invocation Scenario.A ["transfer"; "assetA"; "B"]
      (Scenario.ledger Scenario.created) in
  transfer (Scenario.context Scenario.A "transfer" (Some Scenario.created)
              Scenario.B) stub
  = (Ok (Scenario.encoded Scenario.transferred),
     written stub "assetA" (Scenario.encoded Scenario.transferred))
  /\ fails (transfer (Scenario.context Scenario.B "transfer"
                        (Some Scenario.created) Scenario.B) stub)
       (ErrTransferUnauthorized "assetA") Unauthorized stub.
Proof.
  intros stub. split.
  - destruct (transfer_spec
                (Scenario.context Scenario.A "transfer"
                   (Some Scenario.created) Scenario.B) stub
                (list_byte_of_string "B") Scenario.created
                eq_refl eq_refl eq_refl) as (_ & _ & _ & _ & Hok).
    apply Hok.
    + exact owned_by_A.
    + vm_compute. reflexivity.
    + reflexivity.
  - destruct (transfer_spec
                (Scenario.context Scenario.B "transfer"
                   (Some Scenario.created) Scenario.B) stub
                (list_byte_of_string "B") Scenario.created
                eq_refl eq_refl eq_refl) as (Hunauthorized & _).
    apply Hunauthorized. exact not_owned_by_B.
Defined.

Lemma failure_writes_nothing_witness :
  let stub :=
    Scenario.invocation Scenario.A ["transfer"; "assetA"; "B"]
      (Scenario.ledger Scenario.locked) in
  Status (fst (Invoke stub)) <> OK
  /\ stub_state (snd (Invoke stub)) = stub_state stub
  /\ snd (lock (Scenario.context Scenario.B "lock" (Some Scenario.created)
                  (lit "channel2")) stub) = stub.
Proof.
  intros stub.
  destruct (failure_writes_nothing stub) as (Hhandler & _ & Hinvoke).
  split; [|split].
  - vm_compute. discriminate.
  - apply (Hinvoke (fst (Invoke stub)) (snd (Invoke stub))).
    + destruct (Invoke stub). reflexivity.
    + vm_compute. discriminate.
  - apply (Hhandler lock
             (Scenario.context Scenario.B "lock" (Some Scenario.created)
                (lit "channel2"))
             (ErrLockUnauthorized "assetA")).
    + unfold handlers. simpl. tauto.
    + vm_compute. reflexivity.
Defined.

Lemma locked_is_frozen_witness :
  let stub :=
    Scenario.invocation Scenario.B ["transfer"; "assetA"; "B"]
      (Scenario.ledger Scenario.locked) in
  let ac :=
    Scenario.context Scenario.B "transfer" (Some Scenario.locked) Scenario.B
  in
  fails (lock ac stub) (ErrLockLocked "assetA" "channel2") Conflict stub
  /\ fails (transfer ac stub) ErrTransferLocked Conflict stub
  /\ snd (show ac stub) = stub.
Proof.
  intros stub ac.
  assert (Hlocked : LockedToChannel Scenario.locked <> EmptyString)
    by discriminate.
  destruct (locked_is_frozen ac stub Scenario.locked eq_refl Hlocked)
    as (_ & Harg & Hfrozen).
  destruct (Harg (list_byte_of_string "B") eq_refl) as [Hlock Htransfer].
  split; [exact Hlock|]. split; [exact Htransfer|].
  apply Hfrozen.
  - discriminate.
  - unfold handlers. simpl. tauto.
Defined.

(** C7, as stated, fails on the code in two ways. A lock invocation without
    its argument, on a locked asset, fails with the bad request of the
    missing argument, not with a conflict. And when the locked asset stored
    at the key has an empty history, a show invocation succeeds and replaces
    it by an unlocked asset. *)
Lemma locked_conflict_counterexample :
  (let stub :=
     Scenario.invocation Scenario.A ["lock"; "assetA"]
       (Scenario.ledger Scenario.locked) in
   LockedToChannel Scenario.locked <> EmptyString
   /\ lock (Scenario.context Scenario.A "lock" (Some Scenario.locked) None)
        stub = (Err ErrLockNoArg, stub)
   /\ kindOf ErrLockNoArg <> Conflict
   /\ fst (Invoke stub) = shim_Error "Must pass toChannel argument")
  /\ (let stub :=
        Scenario.invocation Scenario.B ["show"; "assetA"; "channel1"]
          (Scenario.ledger Scenario.lockedNoHistory) in
      LockedToChannel Scenario.lockedNoHistory <> EmptyString
      /\ proto_Unmarshal (Scenario.encoded Scenario.lockedNoHistory)
         = Ok Scenario.lockedNoHistory
      /\ Invoke stub
         = (shim_Success (Some (Scenario.encoded (Scenario.shown Scenario.B))),
            written stub "assetA"
              (Scenario.encoded (Scenario.shown Scenario.B)))
      /\ LockedToChannel (Scenario.shown Scenario.B) = EmptyString).
Proof.
  split.
  - intros stub. split; [discriminate|]. split; [reflexivity|].
    split; [discriminate|]. vm_compute. reflexivity.
  - intros stub. split; [discriminate|]. split; [vm_compute; reflexivity|].
    split; [vm_compute; reflexivity|]. reflexivity.
Qed.

End ScenarioExamples.

(** *** The properties of an invocation at concrete invocations *)

Section InvocationExamples.

#[local] Existing Instance Wire.codec.

Lemma Invoke_argument_count_witness :
  Invoke (Scenario.invocation Scenario.A [] ∅)
  = (shim_Error "Invoke called with no arguments",
     Scenario.invocation Scenario.A [] ∅)
  /\ Invoke (Scenario.anonymous ["query"] ∅)
     = (shim_Error "Invoke called with only one argument",
        Scenario.anonymous ["query"] ∅)
  /\ Invoke (Scenario.unreadable Scenario.A
               ["transfer"; "assetA"; "B"; "now"])
     = (shim_Error "Invoke called with too many arguments",
        Scenario.unreadable Scenario.A ["transfer"; "assetA"; "B"; "now"]).
Proof.
  split; [|split].
  - apply (proj1 (Invoke_argument_count _)). reflexivity.
  - apply (proj1 (proj2 (Invoke_argument_count _))). reflexivity.
  - apply (proj2 (proj2 (Invoke_argument_count _))). simpl. lia.
Defined.

Lemma Invoke_context_errors_witness :
  Invoke (Scenario.anonymous ["query"; "assetA"] ∅)
  = (shim_Error "Could not get creator: no identity",
     Scenario.anonymous ["query"; "assetA"] ∅)
  /\ Invoke (Scenario.unreadable Scenario.A ["create"; "assetA"])
     = (shim_Error "Could not get asset for key assetA: ledger is down",
        Scenario.unreadable Scenario.A ["create"; "assetA"])
  /\ Invoke (Scenario.invocation Scenario.A ["destroy"; "assetA"]
               Scenario.garbage)
     = (shim_Error "Unexpected error unmarshaling: unexpected EOF",
        Scenario.invocation Scenario.A ["destroy"; "assetA"]
          Scenario.garbage).
Proof.
  split; [|split].
  - apply (proj1 (Invoke_context_errors
                    (Scenario.anonymous ["query"; "assetA"] ∅)
                    (or_introl eq_refl))).
    reflexivity.
  - apply (proj1 (proj2 (Invoke_context_errors
                           (Scenario.unreadable Scenario.A
                              ["create"; "assetA"])
                           (or_introl eq_refl)))
             Scenario.A "ledger is down").
    + reflexivity.
    + reflexivity.
  - apply (proj2 (proj2 (Invoke_context_errors
                           (Scenario.invocation Scenario.A
                              ["destroy"; "assetA"] Scenario.garbage)
                           (or_introl eq_refl)))
             Scenario.A ["010"%byte] "unexpected EOF").
    + reflexivity.
    + reflexivity.
    + vm_compute. reflexivity.
    + vm_compute. reflexivity.
Defined.

Lemma Invoke_unknown_function_witness :
  Invoke (Scenario.invocation Scenario.A ["destroy"; "assetA"]
            (Scenario.ledger Scenario.created))
  = (shim_Error "Invalid invocation function",
     Scenario.invocation Scenario.A ["destroy"; "assetA"]
       (Scenario.ledger Scenario.created)).
Proof.
  apply (Invoke_unknown_function _
           (Scenario.context Scenario.A "destroy" (Some Scenario.created)
              None)).
  - vm_compute. reflexivity.
  - vm_compute. intros [Hx|[Hx|[Hx|[Hx|[Hx|[]]]]]]; discriminate.
Defined.

Lemma Invoke_touches_only_key_witness :
  let stub :=
    Scenario.invocation Scenario.A ["lock"; "assetB"; "channel2"]
      (<["assetB" := Scenario.encoded Scenario.created]>
         (Scenario.ledger Scenario.created)) in
  stub_state (snd (Invoke stub)) !! "assetA"
  = Some (Scenario.encoded Scenario.created)
  /\ stub_state (snd (Invoke stub)) !! "assetB"
     = Some (Scenario.encoded Scenario.locked).
Proof.
  intros stub. split.
  - rewrite (proj2 (proj2 (Invoke_touches_only_key stub)) "assetA").
    + vm_compute. reflexivity.
    + vm_compute. discriminate.
  - vm_compute. reflexivity.
Defined.

Lemma create_never_overwrites_witness :
  let stub :=
    Scenario.invocation Scenario.B ["create"; "assetA"] Scenario.garbage in
  Status (fst (Invoke stub)) = ERROR /\ snd (Invoke stub) = stub.
Proof.
  intros stub.
  apply (create_never_overwrites stub ["010"%byte]).
  - reflexivity.
  - vm_compute. reflexivity.
Defined.

Lemma mutation_requires_ownership_witness :
  exists (arg : list byte) (a : Asset),
    functionArg (Scenario.context Scenario.A "lock" (Some Scenario.created)
                   (lit "channel2")) = Some arg
    /\ asset (Scenario.context Scenario.A "lock" (Some Scenario.created)
                (lit "channel2")) = Some a
    /\ LockedToChannel a = EmptyString
    /\ ownedBy a Scenario.A.
Proof.
  apply (mutation_requires_ownership lock
           (Scenario.context Scenario.A "lock" (Some Scenario.created)
              (lit "channel2"))
           (Scenario.invocation Scenario.A ["lock"; "assetA"; "channel2"]
              (Scenario.ledger Scenario.created))
           (Scenario.encoded Scenario.locked)
           (Scenario.invocation Scenario.A ["lock"; "assetA"; "channel2"]
              (Scenario.ledger Scenario.locked))).
  - simpl. tauto.
  - vm_compute. reflexivity.
Defined.

Lemma written_asset_has_owner_witness :
  let stub' :=
    Scenario.invocation Scenario.A ["transfer"; "assetA"; "B"]
      (Scenario.ledger Scenario.transferred) in
  stub_state stub' !! "assetA" = Some (Scenario.encoded Scenario.transferred)
  /\ exists (a' : Asset) (earlier : list (option Owner)) (o : Owner),
       proto_Marshal a' = Ok (Scenario.encoded Scenario.transferred)
       /\ History a' = earlier ++ [Some o].
Proof.
  intros stub'.
  apply (written_asset_has_owner transfer
           (Scenario.context Scenario.A "transfer" (Some Scenario.created)
              Scenario.B)
           (Scenario.invocation Scenario.A ["transfer"; "assetA"; "B"]
              (Scenario.ledger Scenario.created))).
  - unfold writers. simpl. tauto.
  - vm_compute. reflexivity.
Defined.

Lemma history_append_only_witness :
  exists (a' : Asset) (later : list (option Owner)),
    proto_Marshal a' = Ok (Scenario.encoded Scenario.transferred)
    /\ History a' = History Scenario.created ++ later.
Proof.
  apply (history_append_only transfer
           (Scenario.context Scenario.A "transfer" (Some Scenario.created)
              Scenario.B)
           (Scenario.invocation Scenario.A ["transfer"; "assetA"; "B"]
              (Scenario.ledger Scenario.created))
           Scenario.created
           (Scenario.encoded Scenario.transferred)
           (Scenario.invocation Scenario.A ["transfer"; "assetA"; "B"]
              (Scenario.ledger Scenario.transferred))).
  - unfold writers. simpl. tauto.
  - reflexivity.
  - vm_compute. reflexivity.
Defined.

Lemma owner_after_write_witness :
  exists (a' : Asset) (toOwnerId : list byte),
    Scenario.B = Some toOwnerId
    /\ proto_Marshal a' = Ok (Scenario.encoded Scenario.transferred)
    /\ forall x : bytes, ownedBy a' x <-> contents x = toOwnerId.
Proof.
  apply (proj1 (proj2 (owner_after_write
                         (Scenario.context Scenario.A "transfer"
                            (Some Scenario.created) Scenario.B)
                         (Scenario.invocation Scenario.A
                            ["transfer"; "assetA"; "B"]
                            (Scenario.ledger Scenario.created))
                         (Scenario.encoded Scenario.transferred)
                         (Scenario.invocation Scenario.A
                            ["transfer"; "assetA"; "B"]
                            (Scenario.ledger Scenario.transferred))))).
  vm_compute. reflexivity.
Defined.

Lemma lock_empty_channel_witness :
  let stub :=
    Scenario.invocation Scenario.A ["lock"; "assetA"; EmptyString]
      (Scenario.ledger Scenario.created) in
  lock (Scenario.context Scenario.A "lock" (Some Scenario.created) (Some []))
    stub
  = (Ok (Scenario.encoded Scenario.created),
     written stub "assetA" (Scenario.encoded Scenario.created)).
Proof.
  intros stub.
  apply (lock_empty_channel
           (Scenario.context Scenario.A "lock" (Some Scenario.created)
              (Some [])) stub Scenario.created).
  - reflexivity.
  - reflexivity.
  - reflexivity.
  - exact owned_by_A.
  - vm_compute. reflexivity.
  - reflexivity.
Defined.

Lemma query_reads_for_anyone_witness :
  let stub :=
    Scenario.invocation Scenario.A ["query"; "assetA"; "extra"]
      (Scenario.ledger Scenario.locked) in
  snd (Invoke stub) = stub
  /\ fst (Invoke (withCreator stub (Ok Scenario.A)))
     = fst (Invoke (withCreator stub (Ok Scenario.B))).
Proof.
  intros stub.
  destruct (query_reads_for_anyone stub eq_refl) as [Hsame Hanyone].
  split; [exact Hsame | apply Hanyone].
Defined.

Lemma locked_asset_never_rewritten_witness :
  let stub :=
    Scenario.invocation Scenario.B ["show"; "assetA"; "channel1"]
      (Scenario.ledger Scenario.locked) in
  snd (Invoke stub) = stub.
Proof.
  intros stub.
  apply (locked_asset_never_rewritten stub
           (Scenario.encoded Scenario.locked) Scenario.locked).
  - vm_compute. reflexivity.
  - vm_compute. reflexivity.
  - discriminate.
  - discriminate.
Defined.

Lemma handler_failures_witness :
  let stub := Scenario.readOnly Scenario.A ["create"; "assetA"] ∅ in
  let e := ErrPutState "assetA" "ledger is read-only" in
  In (kindOf e) [BadRequest; NotFound; Conflict; Unauthorized]
  \/ (exists (a : Asset) (cause : string),
        e = ErrMarshal cause /\ proto_Marshal a = Err cause)
  \/ (exists (a : Asset) (value : list byte) (cause : string),
        e = ErrPutState "assetA" cause
        /\ proto_Marshal a = Ok value
        /\ stub_putStateErr stub "assetA" value = Some cause).
Proof.
  intros stub e.
  apply (handler_failures create
           (Scenario.context Scenario.A "create" None None) stub e stub).
  - unfold handlers. simpl. tauto.
  - vm_compute. reflexivity.
Defined.

Lemma Invoke_success_arity_witness :
  let stub :=
    Scenario.invocation Scenario.A ["query"; "assetA"; "extra"]
      (Scenario.ledger Scenario.created) in
  (invokedFunction stub = "create"
   /\ (length (GetArgs stub) = 2
       \/ (length (GetArgs stub) = 3 /\ index (GetArgs stub) 2 = None)))
  \/ (In (invokedFunction stub) ["lock"; "show"; "transfer"; "query"]
      /\ length (GetArgs stub) = 3
      /\ index (GetArgs stub) 2 <> None).
Proof.
  intros stub. apply (Invoke_success_arity stub).
  vm_compute. reflexivity.
Defined.

Lemma no_double_create_witness :
  let second :=
    Scenario.invocation Scenario.B ["create"; "assetA"]
      (Scenario.ledger Scenario.created) in
  Status (fst (Invoke second)) = ERROR /\ snd (Invoke second) = second.
Proof.
  intros second.
  apply (no_double_create
           (Scenario.invocation Scenario.A ["create"; "assetA"] ∅) second).
  - reflexivity.
  - vm_compute. reflexivity.
  - reflexivity.
  - reflexivity.
  - vm_compute. reflexivity.
Defined.

End InvocationExamples.
